(** * The VAPI demo front end: adaptive delivery client and chat transcript

    A shallow embedding of
    - [app/static/js/message-polling.js] (module [Polling]): the globals of
      the polling client, its timer and its interval policy;
    - the string and array methods that the scripts rely on (module [Js]);
    - the chat script ([addChatMessageWithSource],
      [loadChatHistoryFromStorage], [updateConversationContext], ...),
      [handleVoiceTranscript] / [startVoiceCall] of
      [app/static/js/voice-functions.js] and [displayNewMessage] of the
      polling script (module [Chat]).

    JavaScript globals become the fields of a record that every function
    takes and returns; [Date.now()] is an argument; the browser's timers,
    idle callbacks and pending requests are kept in the record and fire as
    events. *)

From Stdlib Require Import ZArith Lia Bool List String Ascii.
From stdpp Require Import base list strings gmap.
Import ListNotations.
Local Open Scope Z_scope.

(** JavaScript truthiness of a value that is a string when present:
    [undefined], [null] and [''] are falsy. *)
Definition truthy (o : option string) : bool :=
  match o with
  | Some s => negb (String.eqb s "")
  | None => false
  end.

(** [a || b] on such values. *)
Definition js_or (a : option string) (b : string) : string :=
  match a with
  | Some s => if String.eqb s "" then b else s
  | None => b
  end.

(** A message object of [GET /api/messages/{sessionId}]. *)
Record MessageData := mkMessageData {
  md_content : option string;
  md_role : option string;
  md_source : option string
}.

(* ================================================================== *)
(** * message-polling.js *)
(* ================================================================== *)

Module Polling.

(** The value of [messagePollingInterval] when it is not [null]: the handle
    of a [setTimeout] that is still armed with its delay, or of one that has
    fired already (the variable keeps the stale handle, which is still
    truthy). *)
Inductive timer :=
| Armed (delay : Z)
| Fired.

(** What [await fetch(...)] followed by [await response.json()] produces. *)
Inductive response :=
| RespData (messages : list MessageData)  (* data.success && data.messages *)
| RespNoData                              (* a JSON body without them *)
| RespThrow.                              (* fetch rejects, or no JSON body *)

Record state := mkState {
  messagePollingInterval : option timer;
  lastMessageCount : nat;
  currentSessionId : option string;
  lastActivity : Z;
  currentPollingInterval : Z;
  consecutiveEmptyPolls : Z;
  isVoiceActive : bool;
  isChatActive : bool;
  isPaused : bool;
  (* the browser's side of the event loop *)
  idleCallbacks : nat;   (* callbacks queued by requestIdleCallback / setTimeout 0 *)
  inFlight : nat;        (* GET requests that have not settled *)
  requests : nat;        (* GET requests issued so far *)
  chatResets : nat       (* pending 5-minute resets of isChatActive *)
}.

Definition set_timer (t : option timer) (s : state) : state :=
  mkState t (lastMessageCount s) (currentSessionId s) (lastActivity s)
    (currentPollingInterval s) (consecutiveEmptyPolls s) (isVoiceActive s)
    (isChatActive s) (isPaused s) (idleCallbacks s) (inFlight s) (requests s)
    (chatResets s).

Definition set_lastMessageCount (n : nat) (s : state) : state :=
  mkState (messagePollingInterval s) n (currentSessionId s) (lastActivity s)
    (currentPollingInterval s) (consecutiveEmptyPolls s) (isVoiceActive s)
    (isChatActive s) (isPaused s) (idleCallbacks s) (inFlight s) (requests s)
    (chatResets s).

Definition set_session (o : option string) (s : state) : state :=
  mkState (messagePollingInterval s) (lastMessageCount s) o (lastActivity s)
    (currentPollingInterval s) (consecutiveEmptyPolls s) (isVoiceActive s)
    (isChatActive s) (isPaused s) (idleCallbacks s) (inFlight s) (requests s)
    (chatResets s).

Definition set_lastActivity (t : Z) (s : state) : state :=
  mkState (messagePollingInterval s) (lastMessageCount s) (currentSessionId s) t
    (currentPollingInterval s) (consecutiveEmptyPolls s) (isVoiceActive s)
    (isChatActive s) (isPaused s) (idleCallbacks s) (inFlight s) (requests s)
    (chatResets s).

Definition set_interval (i : Z) (s : state) : state :=
  mkState (messagePollingInterval s) (lastMessageCount s) (currentSessionId s)
    (lastActivity s) i (consecutiveEmptyPolls s) (isVoiceActive s)
    (isChatActive s) (isPaused s) (idleCallbacks s) (inFlight s) (requests s)
    (chatResets s).

Definition set_empty (n : Z) (s : state) : state :=
  mkState (messagePollingInterval s) (lastMessageCount s) (currentSessionId s)
    (lastActivity s) (currentPollingInterval s) n (isVoiceActive s)
    (isChatActive s) (isPaused s) (idleCallbacks s) (inFlight s) (requests s)
    (chatResets s).

Definition set_voice (b : bool) (s : state) : state :=
  mkState (messagePollingInterval s) (lastMessageCount s) (currentSessionId s)
    (lastActivity s) (currentPollingInterval s) (consecutiveEmptyPolls s) b
    (isChatActive s) (isPaused s) (idleCallbacks s) (inFlight s) (requests s)
    (chatResets s).

Definition set_chat (b : bool) (s : state) : state :=
  mkState (messagePollingInterval s) (lastMessageCount s) (currentSessionId s)
    (lastActivity s) (currentPollingInterval s) (consecutiveEmptyPolls s)
    (isVoiceActive s) b (isPaused s) (idleCallbacks s) (inFlight s) (requests s)
    (chatResets s).

Definition set_paused (b : bool) (s : state) : state :=
  mkState (messagePollingInterval s) (lastMessageCount s) (currentSessionId s)
    (lastActivity s) (currentPollingInterval s) (consecutiveEmptyPolls s)
    (isVoiceActive s) (isChatActive s) b (idleCallbacks s) (inFlight s)
    (requests s) (chatResets s).

Definition set_loop (idle fl rq cr : nat) (s : state) : state :=
  mkState (messagePollingInterval s) (lastMessageCount s) (currentSessionId s)
    (lastActivity s) (currentPollingInterval s) (consecutiveEmptyPolls s)
    (isVoiceActive s) (isChatActive s) (isPaused s) idle fl rq cr.

(** The globals as the script initialises them; [t0] is [Date.now()] at load. *)
Definition init (t0 : Z) : state :=
  mkState None 0 None t0 15000 0 false false false 0 0 0 0.

(** ** The functions of the script *)

Definition stopMessagePolling (s : state) : state :=
  match messagePollingInterval s with
  | Some _ => set_timer None s       (* clearTimeout; = null *)
  | None => s
  end.

(** [startMessagePolling]: everything after the first [return] is dead code. *)
Definition startMessagePolling (sessionId : string) (s : state) : state :=
  stopMessagePolling s.

(** [clearTimeout] of the old handle, then a fresh timeout armed with the
    current interval. *)
Definition scheduleNextPoll (s : state) : state :=
  set_timer (Some (Armed (currentPollingInterval s))) s.

Definition markUserActivity (now : Z) (s : state) : state :=
  let s := set_chat true (set_empty 0 (set_lastActivity now s)) in
  let s := if isPaused s then scheduleNextPoll (set_paused false s) else s in
  let s := set_interval 8000 s in
  set_loop (idleCallbacks s) (inFlight s) (requests s) (S (chatResets s)) s.

Definition setVoiceActive (active : bool) (now : Z) (s : state) : state :=
  let s := set_voice active s in
  if active then
    let s := set_empty 0 (set_lastActivity now s) in
    if isPaused s then scheduleNextPoll (set_paused false s) else s
  else s.

Definition pausePolling (s : state) : state :=
  match messagePollingInterval s with
  | Some _ =>
      if negb (isPaused s) then set_paused true (set_timer None s) else s
  | None => s
  end.

Definition resumePolling (s : state) : state :=
  if isPaused s then scheduleNextPoll (set_paused false s) else s.

(** The rule that ends [adjustPollingFrequency] early. *)
Definition completely_idle (now : Z) (s : state) : bool :=
  negb (isVoiceActive s) && negb (isChatActive s)
  && (600000 <? now - lastActivity s) && (5 <? consecutiveEmptyPolls s).

(** The interval of the activity tiers. *)
Definition tier (now : Z) (s : state) : Z :=
  if isVoiceActive s || isChatActive s then 5000
  else if now - lastActivity s <? 120000 then 8000
  else if now - lastActivity s <? 600000 then 10000
  else 15000.

(** [Math.min(currentPollingInterval * 1.2, 20000)]. The interval is one of
    the four tier values here, and for each of them the product in double
    precision is exactly the integer [x * 12 / 10]. *)
Definition dampen (x : Z) : Z := Z.min (x * 12 / 10) 20000.

Definition adjustPollingFrequency (now : Z) (s : state) : state :=
  if completely_idle now s then pausePolling s
  else
    let s := set_interval (tier now s) s in
    if 25 <? consecutiveEmptyPolls s
    then set_interval (dampen (currentPollingInterval s)) s
    else s.

(** [checkForNewMessages] up to its first [await]: without a session id it
    returns, otherwise the request is issued. *)
Definition checkForNewMessages_fetch (s : state) : state :=
  if truthy (currentSessionId s)
  then set_loop (idleCallbacks s) (S (inFlight s)) (S (requests s)) (chatResets s) s
  else s.

(** [checkForNewMessages] from the point where the request has settled with
    [r]. The second component is the list of [displayNewMessage] calls, in
    the order in which they are made. *)
Definition checkForNewMessages_resume (r : response) (now : Z) (s : state)
  : state * list MessageData :=
  let '(s, shown) :=
    match r with
    | RespData messages =>
        let messageCount := length messages in
        let '(s, shown) :=
          if (lastMessageCount s <? messageCount)%nat then
            let newMessages := take (messageCount - lastMessageCount s) messages in
            (set_empty 0 (set_lastMessageCount messageCount s), rev newMessages)
          else (set_empty (consecutiveEmptyPolls s + 1) s, [])
        in (adjustPollingFrequency now s, shown)
    | RespNoData => (s, [])
    | RespThrow =>
        (adjustPollingFrequency now (set_empty (consecutiveEmptyPolls s + 2) s), [])
    end in
  (if negb (isPaused s) then scheduleNextPoll s else s, shown).

(** The whole of [checkForNewMessages] when nothing else runs between the
    request and its answer. *)
Definition checkForNewMessages (r : response) (now : Z) (s : state)
  : state * list MessageData :=
  if truthy (currentSessionId s) then checkForNewMessages_resume r now s
  else (s, []).

Definition initializeMessagePolling (cfgId winId : option string) (s : state)
  : state * bool :=
  if truthy (currentSessionId s) then (s, true)
  else if truthy cfgId then (set_session cfgId s, true)
  else if truthy winId then (set_session winId s, true)
  else (s, false).

Definition startMessagePollingWhenReady (cfgId winId : option string) (s : state)
  : state :=
  let sessionId := if truthy cfgId then cfgId else winId in
  if truthy sessionId && negb (truthy (currentSessionId s))
  then set_session sessionId s else s.

(** [clearSessionMessages]; [ok] is [data.success] of the DELETE request
    ([false] also when the request throws). *)
Definition clearSessionMessages (ok : bool) (s : state) : state :=
  if truthy (currentSessionId s) && ok then set_lastMessageCount 0 s else s.

(** ** The event loop *)

Inductive event :=
| EvStartMessagePolling (sessionId : string)
| EvStopMessagePolling
| EvMarkUserActivity (now : Z)
| EvSetVoiceActive (active : bool) (now : Z)
| EvResumePolling
| EvInitializeMessagePolling (cfgId winId : option string)
| EvStartWhenReady (cfgId winId : option string)
| EvClearSessionMessages (ok : bool)
| EvChatReset                             (* a 5-minute timeout fires *)
| EvTimerFires                            (* the armed poll timeout fires *)
| EvIdleCallback                          (* the callback it queued runs *)
| EvFetchSettles (r : response) (now : Z). (* a pending GET settles *)

(** One turn of the event loop. A timeout, a callback or an answer that is
    not pending cannot happen: the state is then left as it is. *)
Definition step (e : event) (s : state) : state :=
  match e with
  | EvStartMessagePolling sid => startMessagePolling sid s
  | EvStopMessagePolling => stopMessagePolling s
  | EvMarkUserActivity now => markUserActivity now s
  | EvSetVoiceActive a now => setVoiceActive a now s
  | EvResumePolling => resumePolling s
  | EvInitializeMessagePolling c w => fst (initializeMessagePolling c w s)
  | EvStartWhenReady c w => startMessagePollingWhenReady c w s
  | EvClearSessionMessages ok => clearSessionMessages ok s
  | EvChatReset =>
      match chatResets s with
      | S n => set_chat false (set_loop (idleCallbacks s) (inFlight s) (requests s) n s)
      | O => s
      end
  | EvTimerFires =>
      match messagePollingInterval s with
      | Some (Armed _) =>
          set_timer (Some Fired)
            (set_loop (S (idleCallbacks s)) (inFlight s) (requests s) (chatResets s) s)
      | _ => s
      end
  | EvIdleCallback =>
      match idleCallbacks s with
      | S n =>
          scheduleNextPoll
            (checkForNewMessages_fetch
               (set_loop n (inFlight s) (requests s) (chatResets s) s))
      | O => s
      end
  | EvFetchSettles r now =>
      match inFlight s with
      | S n =>
          fst (checkForNewMessages_resume r now
                 (set_loop (idleCallbacks s) n (requests s) (chatResets s) s))
      | O => s
      end
  end.

Definition run (evs : list event) (s : state) : state :=
  fold_left (fun s e => step e s) evs s.

(** ** Calls, as the page makes them *)

(** An activity signal, or one whole run of [checkForNewMessages] whose
    request is answered by [r]. *)
Inductive call :=
| MarkUserActivity (now : Z)
| SetVoiceActive (active : bool) (now : Z)
| CheckForNewMessages (r : response) (now : Z).

Definition perform (c : call) (s : state) : state :=
  match c with
  | MarkUserActivity now => markUserActivity now s
  | SetVoiceActive a now => setVoiceActive a now s
  | CheckForNewMessages r now => fst (checkForNewMessages r now s)
  end.

Definition perform_all (cs : list call) (s : state) : state :=
  fold_left (fun s c => perform c s) cs s.

(** ** Predicates on states and events *)

(** The range that the interval is meant to stay in. *)
Definition interval_ok (s : state) : Prop :=
  5000 <= currentPollingInterval s <= 20000.

(** Events that end a pause. *)
Definition wakes (e : event) : bool :=
  match e with
  | EvMarkUserActivity _ | EvSetVoiceActive true _ | EvResumePolling => true
  | _ => false
  end.

(** The state in which the client sleeps: paused, no handle, no callback
    queued. *)
Definition asleep (s : state) : Prop :=
  isPaused s = true /\ messagePollingInterval s = None /\ idleCallbacks s = 0%nat.

(** The state of a client that has never polled. *)
Definition dormant (s : state) : Prop :=
  messagePollingInterval s = None /\ isPaused s = false /\
  idleCallbacks s = 0%nat /\ inFlight s = 0%nat /\ requests s = 0%nat.

End Polling.

(* ================================================================== *)
(** * Strings as the scripts use them *)
(* ================================================================== *)

Module Js.

Local Open Scope string_scope.
Local Open Scope Z_scope.

(** ** Strings

    A JavaScript string is held as the bytes of its UTF-8 encoding, which is
    also how a string literal of this file is read: U+00A0 is the two bytes
    194 160. (Strings with an unpaired surrogate have no such encoding and
    are left out.) Two strings are equal exactly when their encodings are;
    the separators that the scripts split at, the digits and the signs are
    ASCII characters, and a byte below 128 never occurs inside the encoding
    of another character. *)

(** The white space and line terminators of ECMAScript that take one
    byte: TAB, LF, VT, FF, CR and the space. *)
Definition is_space (c : ascii) : bool :=
  let n := nat_of_ascii c in
  ((9 <=? n) && (n <=? 13) || (n =? 32))%nat.

(** Two bytes: U+00A0 (no-break space). *)
Definition is_space2 (c1 c2 : ascii) : bool :=
  ((nat_of_ascii c1 =? 194) && (nat_of_ascii c2 =? 160))%nat.

(** Three bytes: U+1680; U+2000 to U+200A, U+2028, U+2029, U+202F; U+205F;
    U+3000; U+FEFF. *)
Definition is_space3 (c1 c2 c3 : ascii) : bool :=
  let a := nat_of_ascii c1 in
  let b := nat_of_ascii c2 in
  let c := nat_of_ascii c3 in
  ((a =? 225) && (b =? 154) && (c =? 128)
   || (a =? 226) && (b =? 128)
      && ((128 <=? c) && (c <=? 138) || (c =? 168) || (c =? 169) || (c =? 175))
   || (a =? 226) && (b =? 129) && (c =? 159)
   || (a =? 227) && (b =? 128) && (c =? 128)
   || (a =? 239) && (b =? 187) && (c =? 191))%nat.

Fixpoint trimStart (s : string) : string :=
  match s with
  | String c1 s1 =>
      if is_space c1 then trimStart s1
      else
        match s1 with
        | String c2 s2 =>
            if is_space2 c1 c2 then trimStart s2
            else
              match s2 with
              | String c3 s3 => if is_space3 c1 c2 c3 then trimStart s3 else s
              | EmptyString => s
              end
        | EmptyString => s
        end
  | EmptyString => EmptyString
  end.

(** The string is cut at the first place from which on there is nothing but
    white space. *)
Fixpoint trimEnd (s : string) : string :=
  match s with
  | String c s' =>
      if String.eqb (trimStart (String c s')) "" then "" else String c (trimEnd s')
  | EmptyString => EmptyString
  end.

Definition trim (s : string) : string := trimEnd (trimStart s).

(** [s.split(sep)] for a one-character separator. *)
Fixpoint split (sep : ascii) (s : string) : list string :=
  match s with
  | String c s' =>
      if Ascii.eqb c sep then "" :: split sep s'
      else match split sep s' with
           | a :: l => String c a :: l
           | [] => [String c ""]
           end
  | EmptyString => [""]
  end.

(** [const [a, b] = s.split(sep, 2)]: the first two pieces, the second
    [undefined] when the separator does not occur. *)
Definition split2 (sep : ascii) (s : string) : string * option string :=
  match split sep s with
  | a :: b :: _ => (a, Some b)
  | a :: [] => (a, None)
  | [] => ("", None)
  end.

(** ** Numbers *)

(** The Numbers that [parseInt] and a difference of its results can be:
    [NaN], an integer that double precision holds, or an infinity. (The
    sign of a zero is not kept; nothing here looks at it.) *)
Inductive number :=
| NaN
| Finite (v : Z)
| Infinite (negative : bool).

(** The integer [n >= 0] rounded to 53 significant bits, to the nearest and
    to the even one of two that are equally near. *)
Definition roundMagnitude (n : Z) : Z :=
  if n <? 2 ^ 53 then n
  else
    let e := Z.log2 n - 52 in
    let q := n / 2 ^ e in
    let r := n mod 2 ^ e in
    let q := if (2 ^ (e - 1) <? r) || ((r =? 2 ^ (e - 1)) && Z.odd q)
             then q + 1 else q in
    q * 2 ^ e.

(** The Number value of an integer: the nearest double, an infinity from
    2^1024 on. *)
Definition toNumber (z : Z) : number :=
  let a := roundMagnitude (Z.abs z) in
  if 2 ^ 1024 <=? a then Infinite (z <? 0) else Finite (Z.sgn z * a).

(** [x - y] *)
Definition subtract (x y : number) : number :=
  match x, y with
  | NaN, _ | _, NaN => NaN
  | Finite a, Finite b => toNumber (a - b)
  | Infinite n, Finite _ => Infinite n
  | Finite _, Infinite n => Infinite (negb n)
  | Infinite n, Infinite m => if Bool.eqb n m then NaN else Infinite n
  end.

(** [v > 0] *)
Definition positive (v : number) : bool :=
  match v with
  | NaN => false
  | Finite v => 0 <? v
  | Infinite negative => negb negative
  end.

Definition digit (c : ascii) : option Z :=
  let n := Z.of_nat (nat_of_ascii c) in
  if (48 <=? n) && (n <=? 57) then Some (n - 48) else None.

Definition hexdigit (c : ascii) : option Z :=
  let n := Z.of_nat (nat_of_ascii c) in
  if (48 <=? n) && (n <=? 57) then Some (n - 48)
  else if (97 <=? n) && (n <=? 102) then Some (n - 87)
  else if (65 <=? n) && (n <=? 70) then Some (n - 55)
  else None.

(** The value of the longest prefix of digits of [s] in base [radix];
    [None] when [s] does not start with a digit. *)
Fixpoint mathInt (dig : ascii -> option Z) (radix : Z) (acc : option Z) (s : string)
  : option Z :=
  match s with
  | String c s' =>
      match dig c with
      | Some d => mathInt dig radix (Some (radix * default 0 acc + d)) s'
      | None => acc
      end
  | EmptyString => acc
  end.

(** [parseInt(s)] with no radix argument: leading white space is skipped,
    then a sign, then [0x] or [0X] selects base 16; the digits that follow
    give an integer, and the result is the Number value of that integer.
    (Past 20 significant decimal digits the language lets an implementation
    read the further digits as zeros; the value is taken exactly here.) *)
Definition parseInt (s : string) : number :=
  let s := trimStart s in
  let '(neg, s) :=
    match s with
    | String "-" s' => (true, s')
    | String "+" s' => (false, s')
    | _ => (false, s)
    end in
  let v :=
    match s with
    | String "0" (String "x" s') | String "0" (String "X" s') =>
        mathInt hexdigit 16 None s'
    | _ => mathInt digit 10 None s
    end in
  match v with
  | Some n => toNumber (if neg : bool then - n else n)
  | None => NaN
  end.

(** ** Arrays *)

(** [l.sort(compareFn)]: the sort is stable; [x] is moved behind [y] only
    when [compareFn(x, y) > 0], and a [NaN] result counts as 0. For a
    comparator that orders the elements consistently this is the one result
    the language allows. *)
Definition after (compareFn : string -> string -> number) (x y : string) : bool :=
  positive (compareFn x y).

Fixpoint insert (compareFn : string -> string -> number) (x : string)
  (l : list string) : list string :=
  match l with
  | y :: l' =>
      if after compareFn x y then y :: insert compareFn x l' else x :: l
  | [] => [x]
  end.

Definition sort (compareFn : string -> string -> number) (l : list string)
  : list string :=
  foldr (insert compareFn) [] l.

(** [l.slice(-n)]. *)
Definition slice_last {A} (n : nat) (l : list A) : list A :=
  drop (length l - n) l.

Definition newline : string := String (ascii_of_nat 10) "".

End Js.

(* ================================================================== *)
(** * The chat script and the voice transcript handler *)
(* ================================================================== *)

Module Chat.

Import Js.
Local Open Scope string_scope.
Local Open Scope Z_scope.

(** An entry of [window.chatHistory]. [timestamp] is the instant that
    [new Date().toISOString()] prints; [isFinal] is [false] for an entry
    without that property. *)
Record ChatMessage := mkChatMessage {
  role : string;
  content : string;
  timestamp : Z;
  source : string;
  isFinal : bool
}.

(** A value of [localStorage]. [Json h] is the text [JSON.stringify(h)] of
    a message array (never empty, and [JSON.parse] gives [h] back); [Text s]
    is any other string, on which [JSON.parse] is taken to throw. *)
Inductive item :=
| Json (h : list ChatMessage)
| Text (s : string).

(** A child of the [#chatMessages] element. *)
Inductive bubble :=
| Bubble (message sender source : string)    (* addChatMessageWithSource *)
| Restored (message sender source : string)  (* addChatMessageToUI *)
| Basic (content : string).                  (* fallback of displayNewMessage *)

(** A transcript message of the voice SDK. *)
Record VoiceMessage := mkVoiceMessage {
  vm_role : option string;
  vm_transcript : option string;
  vm_sessionId : option string
}.

Record world := mkWorld {
  clock : Z;                                   (* Date.now() *)
  BROWSER_SESSION_ID : option string;
  chatScript : bool;      (* the chat script has run: window.addChatMessageWithSource,
                             window.saveChatHistoryToStorage, ... are functions *)
  chatMessages : option (list bubble);         (* the element, when the page has one *)
  chatHistory : option (list ChatMessage);     (* window.chatHistory *)
  localStorage : list (string * item);         (* in the order of Object.keys *)
  processedTranscripts : gset string;
  cleanups : list (Z * string);                (* pending 10 s timeouts: due time, entry *)
  variableValues : option (gmap string string);
                          (* window.VAPI_CONFIG.assistantOverrides.variableValues;
                             None on a page without that configuration *)
  vapiSessionId : option string
}.

Definition set_clock (t : Z) (w : world) : world :=
  mkWorld t (BROWSER_SESSION_ID w) (chatScript w) (chatMessages w) (chatHistory w)
    (localStorage w) (processedTranscripts w) (cleanups w) (variableValues w)
    (vapiSessionId w).

Definition set_session (o : option string) (w : world) : world :=
  mkWorld (clock w) o (chatScript w) (chatMessages w) (chatHistory w)
    (localStorage w) (processedTranscripts w) (cleanups w) (variableValues w)
    (vapiSessionId w).

Definition set_chatMessages (d : option (list bubble)) (w : world) : world :=
  mkWorld (clock w) (BROWSER_SESSION_ID w) (chatScript w) d (chatHistory w)
    (localStorage w) (processedTranscripts w) (cleanups w) (variableValues w)
    (vapiSessionId w).

Definition set_chatHistory (h : option (list ChatMessage)) (w : world) : world :=
  mkWorld (clock w) (BROWSER_SESSION_ID w) (chatScript w) (chatMessages w) h
    (localStorage w) (processedTranscripts w) (cleanups w) (variableValues w)
    (vapiSessionId w).

Definition set_localStorage (ls : list (string * item)) (w : world) : world :=
  mkWorld (clock w) (BROWSER_SESSION_ID w) (chatScript w) (chatMessages w)
    (chatHistory w) ls (processedTranscripts w) (cleanups w) (variableValues w)
    (vapiSessionId w).

Definition set_processed (p : gset string) (c : list (Z * string)) (w : world)
  : world :=
  mkWorld (clock w) (BROWSER_SESSION_ID w) (chatScript w) (chatMessages w)
    (chatHistory w) (localStorage w) p c (variableValues w) (vapiSessionId w).

Definition set_variableValues (v : option (gmap string string)) (w : world)
  : world :=
  mkWorld (clock w) (BROWSER_SESSION_ID w) (chatScript w) (chatMessages w)
    (chatHistory w) (localStorage w) (processedTranscripts w) (cleanups w) v
    (vapiSessionId w).

Definition set_vapiSessionId (o : option string) (w : world) : world :=
  mkWorld (clock w) (BROWSER_SESSION_ID w) (chatScript w) (chatMessages w)
    (chatHistory w) (localStorage w) (processedTranscripts w) (cleanups w)
    (variableValues w) o.

(** ** localStorage *)

Fixpoint getItem (k : string) (ls : list (string * item)) : option item :=
  match ls with
  | (k', v) :: ls' => if String.eqb k k' then Some v else getItem k ls'
  | [] => None
  end.

(** An existing key keeps its place, a new one goes to the end. *)
Fixpoint setItem (k : string) (v : item) (ls : list (string * item))
  : list (string * item) :=
  match ls with
  | (k', v') :: ls' =>
      if String.eqb k k' then (k, v) :: ls' else (k', v') :: setItem k v ls'
  | [] => [(k, v)]
  end.

Definition removeItem (k : string) (ls : list (string * item))
  : list (string * item) :=
  filter (fun kv => negb (String.eqb k (fst kv))) ls.

(** Truthiness of what [getItem] returns: [null] and [''] are falsy. *)
Definition stored_truthy (o : option item) : bool :=
  match o with
  | Some (Json _) => true
  | Some (Text s) => negb (String.eqb s "")
  | None => false
  end.

Definition storageKey (w : world) : string :=
  "chatHistory_" ++ js_or (BROWSER_SESSION_ID w) "default".

(** ** The conversation context *)

Definition context_line (msg : ChatMessage) : string :=
  (if String.eqb (role msg) "user" then "User" else "Assistant")
  ++ ": " ++ content msg.

(** [(window.chatHistory || []).slice(-30).map(...).join('\n')] *)
Definition conversationContext (h : option (list ChatMessage)) : string :=
  String.concat newline (map context_line (slice_last 30 (default [] h))).

(** [conversationContext || 'Keine vorherigen Nachrichten'] *)
Definition context_or_placeholder (h : option (list ChatMessage)) : string :=
  js_or (Some (conversationContext h)) "Keine vorherigen Nachrichten".

Definition updateConversationContext (w : world) : world :=
  match variableValues w with
  | Some vv =>
      set_variableValues
        (Some (<["conversation_context" := context_or_placeholder (chatHistory w)]> vv)) w
  | None => w
  end.

(** [startVoiceCall]: the world afterwards, and the [variableValues] handed
    to [vapi.start] when the call is started. [vapi] tells whether
    [window.vapi] is set, and [overrides] whether
    [window.VAPI_CONFIG.assistantOverrides] is an object, which it is
    whenever the world has [variableValues]. With the object but without
    [variableValues] in it, nothing is stored, the spread of [undefined]
    adds nothing and the call is started with the context alone; without
    the object (or without [VAPI_CONFIG]) reading its property throws, and
    the handler only reports the error. *)
Definition startVoiceCall (vapi overrides : bool) (w : world)
  : world * option (gmap string string) :=
  if vapi then
    match variableValues w with
    | Some vv =>
        let w := set_variableValues
          (Some (<["conversation_context" := context_or_placeholder (chatHistory w)]> vv)) w in
        (w, (fun vv => <["conversation_context" := context_or_placeholder (chatHistory w)]> vv)
              <$> variableValues w)
    | None =>
        if overrides
        then (w, Some {["conversation_context" := context_or_placeholder (chatHistory w)]})
        else (w, None)
    end
  else (w, None).

(** ** Loading and saving *)

(** [saveChatHistoryToStorage] (storage is taken to have room: the write
    does not throw). *)
Definition saveChatHistoryToStorage (h : list ChatMessage) (w : world) : world :=
  set_localStorage (setItem (storageKey w) (Json h) (localStorage w)) w.

(** [key.split('_')[1] || '0'] *)
Definition timestampField (key : string) : string :=
  js_or (split "_" key !! 1%nat) "0".

(** The comparator of the sort: [parseInt(timestampB) - parseInt(timestampA)]. *)
Definition byTimestamp (a b : string) : number :=
  subtract (parseInt (timestampField b)) (parseInt (timestampField a)).

Definition chatHistoryKeys (ls : list (string * item)) : list string :=
  filter (fun key => String.prefix "chatHistory_" key) (map fst ls).

(** The container is emptied and refilled from the history (the static
    welcome message is not counted among its children here). *)
Definition restoreChatMessagesToUI (h : list ChatMessage) (w : world) : world :=
  match chatMessages w with
  | Some _ =>
      set_chatMessages
        (Some (map (fun msg => Restored (content msg) (role msg) (source msg)) h)) w
  | None => w
  end.

(** [loadChatHistoryFromStorage]: the world afterwards and the array
    returned. *)
Definition loadChatHistoryFromStorage (w : world) : world * list ChatMessage :=
  let stored := getItem (storageKey w) (localStorage w) in
  let '(w, stored) :=
    if negb (stored_truthy stored) then
      match sort byTimestamp (chatHistoryKeys (localStorage w)) with
      | latestKey :: _ =>
          let stored := getItem latestKey (localStorage w) in
          if stored_truthy stored && truthy (BROWSER_SESSION_ID w) then
            (set_localStorage
               (setItem ("chatHistory_" ++ default "" (BROWSER_SESSION_ID w))
                  (default (Text "") stored) (localStorage w)) w, stored)
          else (w, stored)
      | [] => (w, stored)
      end
    else (w, stored) in
  if stored_truthy stored then
    match stored with
    | Some (Json h) =>
        (match h with [] => w | _ :: _ => restoreChatMessagesToUI h w end, h)
    | _ => (w, [])                       (* JSON.parse throws *)
    end
  else (w, []).

(** ** Appending *)

Definition chatRole (sender : string) : string :=
  if String.eqb sender "user" then "user" else "assistant".

Definition addChatMessageWithSource (message sender source : string) (w : world)
  : world :=
  match chatMessages w with
  | None => w
  | Some _ =>
      let w :=
        match chatHistory w with
        | Some _ => w
        | None =>
            let '(w, h) := loadChatHistoryFromStorage w in
            set_chatHistory (Some h) w
        end in
      let newMessage := mkChatMessage (chatRole sender) message (clock w) source false in
      let h := (default [] (chatHistory w) ++ [newMessage])%list in
      let h := if (30 <? length h)%nat then slice_last 30 h else h in
      let w := set_chatHistory (Some h) w in
      let w := saveChatHistoryToStorage h w in
      let w := updateConversationContext w in
      set_chatMessages
        (Some (default [] (chatMessages w) ++ [Bubble message sender source])%list) w
  end.

Definition addChatMessage (message sender : string) (w : world) : world :=
  addChatMessageWithSource message sender "chat" w.

(** The test that [handleVoiceTranscript] makes on one entry of the set:
    [const [role, content] = id.split('-', 2)], then both compared. *)
Definition sameTranscript (role trimmed id : string) : bool :=
  match split2 "-" id with
  | (r, Some c) => String.eqb r role && String.eqb c trimmed
  | (_, None) => false
  end.

Definition recentlyProcessed (role trimmed : string) (w : world) : bool :=
  existsb (sameTranscript role trimmed) (elements (processedTranscripts w)).

(** [handleVoiceTranscript]. Without the chat script neither
    [addChatMessageWithSource] nor [addChatMessage] is there to be called;
    [handleVoiceResponseActions] only writes to the console. *)
Definition handleVoiceTranscript (message : VoiceMessage) (w : world) : world :=
  if negb (truthy (vm_transcript message)) || negb (truthy (vm_role message))
  then w
  else
    let mrole := default "" (vm_role message) in
    let transcript := default "" (vm_transcript message) in
    let transcriptContent := mrole ++ "-" ++ trim transcript in
    if recentlyProcessed mrole (trim transcript) w then w
    else
      let w := set_processed ({[transcriptContent]} ∪ processedTranscripts w)
                 (cleanups w ++ [(clock w + 10000, transcriptContent)])%list w in
      if negb (String.eqb (trim transcript) "") then
        let chatMessage :=
          mkChatMessage (chatRole mrole) transcript (clock w) "voice" true in
        let w :=
          match chatHistory w with
          | Some _ => w
          | None =>
              if chatScript w then
                let '(w, h) := loadChatHistoryFromStorage w in
                set_chatHistory (Some h) w
              else set_chatHistory (Some []) w
          end in
        let h := (default [] (chatHistory w) ++ [chatMessage])%list in
        let w := set_chatHistory (Some h) w in
        let w := if chatScript w then saveChatHistoryToStorage h w else w in
        let w :=
          if chatScript w
          then addChatMessageWithSource transcript (chatRole mrole) "voice" w
          else w in
        if truthy (vm_sessionId message)
        then set_vapiSessionId (vm_sessionId message) w else w
      else w.

(** [displayNewMessage] of message-polling.js (the toast it shows at the
    end is not part of the world). *)
Definition displayNewMessage (messageData : MessageData) (w : world) : world :=
  let content := js_or (md_content messageData) "Keine Nachricht" in
  let role := js_or (md_role messageData) "assistant" in
  let source := js_or (md_source messageData) "voice-function" in
  if chatScript w then addChatMessageWithSource content role source w
  else
    match chatMessages w with
    | Some d => set_chatMessages (Some (d ++ [Basic content])%list) w
    | None => w
    end.

Definition clearChatHistory (w : world) : world :=
  let w := set_localStorage (removeItem (storageKey w) (localStorage w)) w in
  let w := set_chatHistory (Some []) w in
  match chatMessages w with
  | Some _ => set_chatMessages (Some []) w
  | None => w
  end.

Definition initializeChatHistory (w : world) : world :=
  let w :=
    match chatHistory w with
    | Some _ => w
    | None =>
        let '(w, h) := loadChatHistoryFromStorage w in
        set_chatHistory (Some h) w
    end in
  updateConversationContext w.

(** ** The event loop *)

(** The clock moves to [t] (never backwards). Time alone runs no timeout:
    [setTimeout] promises that its callback does not run before the delay
    has passed, not when it runs. *)
Definition advance (t : Z) (w : world) : world :=
  set_clock (Z.max (clock w) t) w.

(** A 10 s timeout of [handleVoiceTranscript] runs. These timeouts all
    have the same delay, so the browser runs them in the order in which
    they were set, each when its time has come or later: the oldest pending
    one runs if it is due, and deletes its entry from the set; if it is not
    due, no timeout runs. *)
Definition cleanup (w : world) : world :=
  match cleanups w with
  | (due, entry) :: rest =>
      if due <=? clock w
      then set_processed (processedTranscripts w ∖ {[entry]}) rest w
      else w
  | [] => w
  end.

Inductive event :=
| EvVoiceTranscript (message : VoiceMessage)
| EvDisplayNewMessage (messageData : MessageData)
| EvAddChatMessage (message sender : string)
| EvClearChatHistory
| EvInitializeChatHistory
| EvStartVoiceCall (vapi overrides : bool)
| EvCleanup.                       (* a 10 s timeout runs *)

Definition handle (e : event) (w : world) : world :=
  match e with
  | EvVoiceTranscript m => handleVoiceTranscript m w
  | EvDisplayNewMessage m => displayNewMessage m w
  | EvAddChatMessage m s => addChatMessage m s w
  | EvClearChatHistory => clearChatHistory w
  | EvInitializeChatHistory => initializeChatHistory w
  | EvStartVoiceCall v o => fst (startVoiceCall v o w)
  | EvCleanup => cleanup w
  end.

(** An event that the browser delivers at time [t]. *)
Definition step (te : Z * event) (w : world) : world :=
  handle (snd te) (advance (fst te) w).

Definition run (evs : list (Z * event)) (w : world) : world :=
  fold_left (fun w te => step te w) evs w.

(** A page that has just been loaded at time [t0]: nothing of the scripts'
    own state exists yet; the session id, the page's elements, the values
    of the assistant configuration and the content of local storage are
    what the page was served with and what earlier sessions left. *)
Definition fresh (t0 : Z) (sid : option string) (script : bool)
  (dom : option (list bubble)) (vv : option (gmap string string))
  (ls : list (string * item)) : world :=
  mkWorld t0 sid script dom None ls ∅ [] vv None.

(** ** Notions used to state the properties *)

(** The Number that the sort reads in a key, and its value when it is
    finite. *)
Definition stamp (key : string) : number := parseInt (timestampField key).

Definition stampZ (key : string) : Z :=
  match stamp key with
  | Finite v => v
  | _ => 0
  end.

(** The rendering of the context in the words of the specification:
    the last [n] entries as "Role: content" lines joined by newline (the
    character with code 10), and the fixed placeholder for an empty
    transcript. *)
Fixpoint joinedByNewline (lines : list string) : string :=
  match lines with
  | [] => ""
  | line :: rest =>
      match rest with
      | [] => line
      | _ :: _ => line ++ String "010" (joinedByNewline rest)
      end
  end.

Definition roleContentLine (msg : ChatMessage) : string :=
  match decide (role msg = "user") with
  | left _ => "User: " ++ content msg
  | right _ => "Assistant: " ++ content msg
  end.

Definition renderContext (n : nat) (transcript : list ChatMessage) : string :=
  match transcript with
  | [] => "Keine vorherigen Nachrichten"
  | _ :: _ => joinedByNewline (map roleContentLine (rev (take n (rev transcript))))
  end.

(** The fields that only [handleVoiceTranscript] and the clock change. *)
Definition timing (w : world) : Z * gset string * list (Z * string) :=
  (clock w, processedTranscripts w, cleanups w).

(** [s] has no ['-'] in it. *)
Fixpoint nodash (s : string) : bool :=
  match s with
  | String c s' => negb (Ascii.eqb c "-") && nodash s'
  | EmptyString => true
  end.

(** The number of pending cleanups of the entry [id]. *)
Definition pending (id : string) (cs : list (Z * string)) : nat :=
  length (filter (fun c => snd c = id) cs).

(** The entry and the cleanup that a transcript leaves when the check lets
    it through. *)
Definition noted (r k : string) (w : world) : Z * gset string * list (Z * string) :=
  (clock w, {[(r ++ "-" ++ k)%string]} ∪ processedTranscripts w,
   (cleanups w ++ [(clock w + 10000, (r ++ "-" ++ k)%string)])%list).

(** In every world that the scripts can reach, an entry [role-text] whose
    two parts hold no ['-'] is in the set exactly while its one cleanup is
    pending. *)
Definition tidy (w : world) : Prop :=
  forall r k, nodash r = true -> nodash k = true ->
    pending (r ++ "-" ++ k) (cleanups w)
    = if decide ((r ++ "-" ++ k)%string ∈ processedTranscripts w)
      then 1%nat else 0%nat.

(** While the entry [id] is being watched: it is in the set, its cleanups
    are due at [d] or later, and [d] has not come. *)
Definition watching (d : Z) (id : string) (w : world) : Prop :=
  clock w < d /\ d <= clock w + 10000 /\
  id ∈ processedTranscripts w /\
  Forall (fun c => snd c = id -> d <= fst c) (cleanups w).

End Chat.

(* ================================================================== *)
(** * The page: scrolling, sending, and polls that reach the chat *)
(* ================================================================== *)

Module Page.

Import Js Chat.
Local Open Scope string_scope.
Local Open Scope Z_scope.

(** ** scrollToBottomIfNeeded *)

(** The three numbers that the function reads from [#chatContainer], in
    pixels (whole pixels here). *)
Record container := mkContainer {
  scrollTop : Z;
  clientHeight : Z;
  scrollHeight : Z
}.

(** [Math.min(Math.max(containerHeight * 4, 500), 1200)] *)
Definition scrollTolerance (c : container) : Z :=
  Z.min (Z.max (clientHeight c * 4) 500) 1200.

Definition isNearBottom (c : container) : bool :=
  scrollHeight c - scrollTolerance c <=? scrollTop c + clientHeight c.

(** [scrollToBottomIfNeeded(forceScroll)]: the [top] that is passed to
    [scrollTo], or [None] when the function does not scroll. *)
Definition scrollToBottomIfNeeded (forceScroll : bool) (c : option container)
  : option Z :=
  match c with
  | None => None
  | Some c =>
      if forceScroll then Some (scrollHeight c)
      else if isNearBottom c then Some (scrollHeight c)
      else None
  end.

(** ** Stored values *)

(** The array that the loader returns for a stored value that is truthy:
    what [JSON.parse] gives, or the empty array when it throws. *)
Definition parsed (v : item) : list ChatMessage :=
  match v with
  | Json h => h
  | Text _ => []
  end.

(** ** Several appends in a row *)

(** The entry that [addChatMessageWithSource] builds at time [t]. *)
Definition entryOf (t : Z) (m : string * string * string) : ChatMessage :=
  let '(message, sender, source) := m in
  mkChatMessage (chatRole sender) message t source false.

Definition addChatMessages (l : list (string * string * string)) (w : world)
  : world :=
  fold_left
    (fun w m => let '(message, sender, source) := m in
                addChatMessageWithSource message sender source w) l w.

(** The arguments that [displayNewMessage] passes on. *)
Definition shownAs (messageData : MessageData) : string * string * string :=
  (js_or (md_content messageData) "Keine Nachricht",
   js_or (md_role messageData) "assistant",
   js_or (md_source messageData) "voice-function").

(** The loop of [checkForNewMessages] over the new messages. *)
Definition displayNewMessages (l : list MessageData) (w : world) : world :=
  fold_left (fun w m => displayNewMessage m w) l w.

(** ** The page as a whole *)

Record page := mkPage {
  polling : Polling.state;
  chat : world;
  typingIndicator : bool       (* #typingIndicator is shown *)
}.

(** One run of [checkForNewMessages] with its calls of [displayNewMessage]
    carried out on the chat. *)
Definition pollAndDisplay (r : Polling.response) (p : page) : page :=
  let '(s, shown) := Polling.checkForNewMessages r (clock (chat p)) (polling p) in
  mkPage s (displayNewMessages shown (chat p)) (typingIndicator p).

(** ** sendChatMessage *)

(** What [sendChatMessage] finds around it: whether message-polling.js is
    loaded ([typeof markUserActivity === 'function']), and whether
    [window.vapi && (window.isCallActive || isVoiceActive)] holds, the
    latter read from the classes of the widget. *)
Record surroundings := mkSurroundings {
  pollingScript : bool;
  voiceCall : bool
}.

(** The fields of the POST body that come from the transcript. *)
Record chatRequest := mkChatRequest {
  rq_message : string;
  rq_chat_history : list ChatMessage;
  rq_conversation_context : string
}.

Inductive sent :=
| ToVoiceCall (content : string)      (* vapi.send add-message, role user *)
| ToBackend (body : chatRequest).     (* POST /api/chat *)

(** How the POST ends. *)
Inductive reply :=
| ReplyOk (message session_id : option string)  (* response.ok, JSON body *)
| ReplyStatus                                   (* a status outside 200..299 *)
| ReplyRejected.                                (* fetch rejects or is aborted *)

Definition noAnswer : string :=
  "Entschuldigung, ich konnte keine Antwort generieren. Bitte versuchen Sie es erneut.".

(** [sendChatMessage] up to the request: the page afterwards and what is
    sent, if anything. *)
Definition sendChatMessage (e : surroundings) (message : string) (p : page)
  : page * option sent :=
  if String.eqb (trim message) "" then (p, None)
  else
    let s := if pollingScript e
             then Polling.markUserActivity (clock (chat p)) (polling p)
             else polling p in
    let w := addChatMessage message "user" (chat p) in
    if voiceCall e then
      (mkPage s w false, Some (ToVoiceCall message))
    else
      (mkPage s w true,
       Some (ToBackend
               (mkChatRequest message
                  (slice_last 30 (default [] (chatHistory w)))
                  (js_or (variableValues w ≫= (.!! "conversation_context"))
                     "Keine vorherigen Nachrichten")))).

(** [sendChatMessage] from the point where the POST has ended. With a
    status outside 200..299 the indicator is hidden and the function throws
    into its [catch]; when [fetch] rejects it gets there at once. The
    [catch] block calls [clearTimeout(timeoutId)], but [timeoutId] is a
    [const] of the [try] block and not in scope: the call throws a
    ReferenceError, and the rest of the block (hiding the indicator,
    the message about the error) does not run. *)
Definition sendChatMessage_settle (r : reply) (p : page) : page :=
  match r with
  | ReplyOk message session_id =>
      let w := addChatMessage (js_or message noAnswer) "assistant" (chat p) in
      let w := if truthy session_id then set_vapiSessionId session_id w else w in
      mkPage (polling p) w false
  | ReplyStatus => mkPage (polling p) (chat p) false
  | ReplyRejected => p
  end.

End Page.

(* ================================================================== *)
(** * Properties of the polling client *)
(* ================================================================== *)

Module PollingFacts.

Import Polling.

Ltac unfold_script :=
  unfold step, checkForNewMessages, checkForNewMessages_resume,
    checkForNewMessages_fetch, adjustPollingFrequency, markUserActivity,
    setVoiceActive, resumePolling, pausePolling, scheduleNextPoll,
    startMessagePolling, stopMessagePolling, initializeMessagePolling,
    startMessagePollingWhenReady, clearSessionMessages in *.

Ltac split_ifs :=
  repeat match goal with
  | |- context [match ?x with _ => _ end] => destruct x eqn:?; simpl in *
  | |- context [if ?b then _ else _] => destruct b eqn:?; simpl in *
  end.

Lemma tier_range now s : 5000 <= tier now s <= 15000.
Proof. unfold tier. split_ifs; lia. Qed.

Lemma tier_values now s :
  tier now s = 5000 \/ tier now s = 8000 \/ tier now s = 10000 \/ tier now s = 15000.
Proof. unfold tier. split_ifs; auto. Qed.

Lemma dampen_range x : 5000 <= x <= 15000 -> 5000 <= dampen x <= 20000.
Proof.
  intros H. unfold dampen.
  assert (x <= x * 12 / 10) by (apply Z.div_le_lower_bound; lia).
  lia.
Qed.

Lemma adjust_interval_ok now s :
  interval_ok s -> interval_ok (adjustPollingFrequency now s).
Proof.
  unfold interval_ok. intros H. unfold adjustPollingFrequency.
  destruct (completely_idle now s).
  - unfold pausePolling. split_ifs; assumption.
  - cbn [set_interval consecutiveEmptyPolls currentPollingInterval].
    pose proof (tier_range now s) as Ht.
    destruct (25 <? consecutiveEmptyPolls s); cbn.
    + now apply dampen_range.
    + lia.
Qed.

Lemma adjust_assigns now s :
  completely_idle now s = true \/ interval_ok (adjustPollingFrequency now s).
Proof.
  destruct (completely_idle now s) eqn:E; [now left | right].
  unfold interval_ok, adjustPollingFrequency. rewrite E.
  cbn [set_interval consecutiveEmptyPolls currentPollingInterval].
  pose proof (tier_range now s) as Ht.
  destruct (25 <? consecutiveEmptyPolls s); cbn.
  - now apply dampen_range.
  - lia.
Qed.

Lemma resume_interval_ok r now s :
  interval_ok s -> interval_ok (fst (checkForNewMessages_resume r now s)).
Proof.
  intros H. unfold checkForNewMessages_resume.
  destruct r as [messages| |].
  - destruct (lastMessageCount s <? length messages)%nat.
    + set (s1 := set_empty 0 _).
      assert (H1 : interval_ok s1) by exact H.
      apply (adjust_interval_ok now) in H1.
      destruct (isPaused (adjustPollingFrequency now s1)); exact H1.
    + set (s1 := set_empty _ _).
      assert (H1 : interval_ok s1) by exact H.
      apply (adjust_interval_ok now) in H1.
      destruct (isPaused (adjustPollingFrequency now s1)); exact H1.
  - destruct (isPaused s); exact H.
  - set (s1 := set_empty _ _).
    assert (H1 : interval_ok s1) by exact H.
    apply (adjust_interval_ok now) in H1.
    destruct (isPaused (adjustPollingFrequency now s1)); exact H1.
Qed.

Lemma step_interval_ok e s : interval_ok s -> interval_ok (step e s).
Proof.
  intros H. destruct e; cbn [step].
  - unfold startMessagePolling, stopMessagePolling. split_ifs; exact H.
  - unfold stopMessagePolling. split_ifs; exact H.
  - unfold interval_ok, markUserActivity. cbn. lia.
  - unfold setVoiceActive. destruct active; cbn; [|exact H].
    destruct (isPaused s); exact H.
  - unfold resumePolling. destruct (isPaused s); exact H.
  - unfold initializeMessagePolling. split_ifs; exact H.
  - unfold startMessagePollingWhenReady. split_ifs; exact H.
  - unfold clearSessionMessages. split_ifs; exact H.
  - destruct (chatResets s); exact H.
  - destruct (messagePollingInterval s) as [[d|]|]; exact H.
  - destruct (idleCallbacks s); [exact H|].
    unfold checkForNewMessages_fetch. cbn. split_ifs; exact H.
  - destruct (inFlight s); [exact H|].
    apply resume_interval_ok. exact H.
Qed.

Lemma run_interval_ok evs : forall s, interval_ok s -> interval_ok (run evs s).
Proof.
  induction evs as [|e evs IH]; intros s H; [exact H|].
  apply IH, step_interval_ok, H.
Qed.

Lemma perform_interval_ok c s : interval_ok s -> interval_ok (perform c s).
Proof.
  intros H. destruct c; cbn [perform].
  - apply (step_interval_ok (EvMarkUserActivity now) s H).
  - apply (step_interval_ok (EvSetVoiceActive active now) s H).
  - unfold checkForNewMessages. destruct (truthy (currentSessionId s)); [|exact H].
    now apply resume_interval_ok.
Qed.

Lemma perform_all_interval_ok cs :
  forall s, interval_ok s -> interval_ok (perform_all cs s).
Proof.
  induction cs as [|c cs IH]; intros s H; [exact H|].
  apply IH, perform_interval_ok, H.
Qed.

(** C1. From the globals as the script sets them, and from any other state
    whose interval is within 5000..20000 ms, the interval stays within
    5000..20000 ms under every sequence of calls of markUserActivity and
    setVoiceActive and of polls, whatever each poll brings (new messages,
    none, no data, a failure), and likewise under every sequence of events
    of the browser's loop (timeouts, callbacks, answers that settle late).
    Whenever adjustPollingFrequency assigns the interval (it does unless
    the client is completely idle), the value it assigns is within that
    range, whatever the state before. *)
Theorem polling_interval_in_range :
  forall s,
    5000 <= currentPollingInterval s <= 20000 ->
    (forall t0, 5000 <= currentPollingInterval (init t0) <= 20000) /\
    (forall calls,
       5000 <= currentPollingInterval (perform_all calls s) <= 20000) /\
    (forall evs, 5000 <= currentPollingInterval (run evs s) <= 20000) /\
    (forall now s',
       completely_idle now s' = true \/
       5000 <= currentPollingInterval (adjustPollingFrequency now s') <= 20000).
Proof.
  intros s H. split; [|split; [|split]].
  - intros t0. cbn. lia.
  - intros calls. now apply (perform_all_interval_ok calls s).
  - intros evs. now apply (run_interval_ok evs s).
  - intros now s'. apply adjust_assigns.
Qed.

Lemma polling_interval_in_range_witness :
  let s := set_session (Some "s1"%string) (init 0) in
  currentPollingInterval
    (perform_all
       [CheckForNewMessages (RespData []) 15000;
        MarkUserActivity 20000;
        CheckForNewMessages RespThrow 28000;
        SetVoiceActive true 30000;
        CheckForNewMessages (RespData [mkMessageData None None None]) 35000] s)
  = 5000 /\
  5000 <= currentPollingInterval
            (perform_all (repeat (CheckForNewMessages (RespData []) 500000) 30) s)
       <= 20000.
Proof.
  intros s.
  destruct (polling_interval_in_range s) as (_ & H & _); [cbn; lia|].
  split; [reflexivity|]. apply H.
Defined.

(** ** startMessagePolling is switched off *)

Lemma step_dormant e s : dormant s -> dormant (step e s).
Proof.
  unfold dormant. intros (Ht & Hp & Hi & Hf & Hr).
  destruct e; unfold_script; cbn; rewrite ?Ht, ?Hp, ?Hi, ?Hf; cbn;
    try (destruct active; cbn; rewrite ?Hp; cbn);
    split_ifs; auto.
Qed.

Lemma run_dormant evs : forall s, dormant s -> dormant (run evs s).
Proof.
  induction evs as [|e evs IH]; intros s H; [exact H|].
  apply IH, step_dormant, H.
Qed.

(** C5. startMessagePolling(sessionId) clears the pending poll timer and
    does nothing else: every other global keeps its value (the session id
    is not recorded, nothing is reset), no request is issued and no timer
    is armed. From the loading of the script on, whatever is called and
    whatever the browser delivers, no poll timer is ever armed and no GET
    request for messages is ever issued. *)
Theorem startMessagePolling_disabled :
  (forall sessionId s,
     startMessagePolling sessionId s = set_timer None s) /\
  (forall t0 evs,
     let s := run evs (init t0) in
     messagePollingInterval s = None /\ requests s = 0%nat /\
     inFlight s = 0%nat /\ idleCallbacks s = 0%nat /\ isPaused s = false).
Proof.
  split.
  - intros sid s. unfold startMessagePolling, stopMessagePolling.
    destruct s as [t n sid' la ci ce v c p i f r cr]. cbn.
    destruct t; reflexivity.
  - intros t0 evs s.
    destruct (run_dormant evs (init t0)) as (Ht & Hp & Hi & Hf & Hr).
    + repeat split.
    + subst s. auto.
Qed.

(** ** The slowdown after many empty polls *)

(** C8 as stated does not hold: with no flag set, nothing observed for
    700 s and the 26th empty poll in a row, the idle rule comes first, the
    interval is not computed again (it stays 15000) and the client pauses. *)
Lemma idle_rule_precedes_dampening :
  let s := mkState (Some (Armed 15000)) 0 (Some "s1"%string) 0 15000 25
             false false false 0 1 1 0 in
  let s' := fst (checkForNewMessages (RespData []) 700000 s) in
  consecutiveEmptyPolls s' = 26 /\ currentPollingInterval s' = 15000 /\
  currentPollingInterval s' <> 18000 /\ isPaused s' = true /\
  messagePollingInterval s' = None.
Proof. cbn. repeat split. discriminate. Qed.

(** C8, amended. When consecutiveEmptyPolls > 25 and the idle rule does not
    apply, the interval chosen by the activity tiers is replaced by
    min(interval * 1.2, 20000): 6000, 9600, 12000 or 18000 ms. With no flag
    set and 26 empty polls the result is 18000 ms when the time since the
    last activity is exactly 600000 ms; when it is longer the idle rule
    applies and adjustPollingFrequency leaves the interval as it was. *)
Theorem dampening_after_25 :
  forall now s,
    25 < consecutiveEmptyPolls s ->
    (completely_idle now s = false ->
       currentPollingInterval (adjustPollingFrequency now s)
       = Z.min (tier now s * 12 / 10) 20000 /\
       In (currentPollingInterval (adjustPollingFrequency now s))
          [6000; 9600; 12000; 18000]) /\
    (isVoiceActive s = false -> isChatActive s = false ->
     consecutiveEmptyPolls s = 26 -> now - lastActivity s = 600000 ->
       currentPollingInterval (adjustPollingFrequency now s) = 18000) /\
    (isVoiceActive s = false -> isChatActive s = false ->
     600000 < now - lastActivity s ->
       currentPollingInterval (adjustPollingFrequency now s)
       = currentPollingInterval s).
Proof.
  intros now s H25. apply Z.ltb_lt in H25 as H25b.
  split; [|split].
  - intros Hidle. unfold adjustPollingFrequency. rewrite Hidle.
    cbn [set_interval consecutiveEmptyPolls currentPollingInterval].
    rewrite H25b. cbn. split; [reflexivity|].
    unfold dampen.
    destruct (tier_values now s) as [E|[E|[E|E]]]; rewrite E; cbn; auto.
  - intros Hv Hc H26 Ht.
    unfold adjustPollingFrequency, completely_idle, tier.
    rewrite Hv, Hc, Ht. cbn. rewrite H26. cbn. reflexivity.
  - intros Hv Hc Ht.
    unfold adjustPollingFrequency, completely_idle.
    rewrite Hv, Hc. cbn.
    assert (E1 : (600000 <? now - lastActivity s) = true) by (apply Z.ltb_lt; lia).
    assert (E2 : (5 <? consecutiveEmptyPolls s) = true) by (apply Z.ltb_lt; lia).
    rewrite E1, E2. cbn. unfold pausePolling. split_ifs; reflexivity.
Qed.

Lemma dampening_after_25_witness :
  let s := mkState (Some (Armed 15000)) 0 (Some "s1"%string) 0 15000 26
             false false false 0 0 26 0 in
  currentPollingInterval (adjustPollingFrequency 600000 s) = 18000 /\
  currentPollingInterval (adjustPollingFrequency 50000 s) = 9600.
Proof.
  intros s.
  destruct (dampening_after_25 600000 s) as (_ & H2 & _); [cbn; lia|].
  destruct (dampening_after_25 50000 s) as (H1 & _ & _); [cbn; lia|].
  split.
  - apply H2; reflexivity.
  - destruct H1 as [H1 _]; [reflexivity|]. exact H1.
Defined.

(** ** Pause and resume *)

Lemma adjust_without_handle now s :
  messagePollingInterval s = None ->
  let a := adjustPollingFrequency now s in
  messagePollingInterval a = None /\ isPaused a = isPaused s /\
  idleCallbacks a = idleCallbacks s /\ requests a = requests s.
Proof.
  intros Ht. unfold adjustPollingFrequency, pausePolling. rewrite Ht.
  destruct (completely_idle now s); [auto|].
  cbn. destruct (25 <? consecutiveEmptyPolls s); cbn; auto.
Qed.

Lemma resume_asleep r now s :
  asleep s ->
  let s' := fst (checkForNewMessages_resume r now s) in
  asleep s' /\ requests s' = requests s.
Proof.
  unfold asleep. intros (Hp & Ht & Hi).
  unfold checkForNewMessages_resume.
  destruct r as [messages| |].
  - destruct (lastMessageCount s <? length messages)%nat.
    + destruct (adjust_without_handle now
                  (set_empty 0 (set_lastMessageCount (length messages) s)) Ht)
        as (H1 & H2 & H3 & H4).
      cbn in H2, H3, H4. cbn [fst]. rewrite H2, Hp. cbn. rewrite H1, H2, H3, H4. auto.
    + destruct (adjust_without_handle now
                  (set_empty (consecutiveEmptyPolls s + 1) s) Ht)
        as (H1 & H2 & H3 & H4).
      cbn in H2, H3, H4. cbn [fst]. rewrite H2, Hp. cbn. rewrite H1, H2, H3, H4. auto.
  - cbn. rewrite Hp. cbn. auto.
  - destruct (adjust_without_handle now
                (set_empty (consecutiveEmptyPolls s + 2) s) Ht)
      as (H1 & H2 & H3 & H4).
    cbn in H2, H3, H4. cbn [fst]. rewrite H2, Hp. cbn. rewrite H1, H2, H3, H4. auto.
Qed.

Lemma step_asleep e s :
  wakes e = false -> asleep s ->
  asleep (step e s) /\ requests (step e s) = requests s.
Proof.
  intros Hw Hs. pose proof Hs as (Hp & Ht & Hi). unfold asleep.
  destruct e; try discriminate Hw; cbn [step].
  - unfold startMessagePolling, stopMessagePolling. rewrite Ht. auto.
  - unfold stopMessagePolling. rewrite Ht. auto.
  - destruct active; [discriminate Hw|]. cbn. auto.
  - unfold initializeMessagePolling. split_ifs; auto.
  - unfold startMessagePollingWhenReady. split_ifs; auto.
  - unfold clearSessionMessages. split_ifs; auto.
  - destruct (chatResets s); cbn; auto.
  - rewrite Ht. auto.
  - rewrite Hi. auto.
  - destruct (inFlight s) as [|n]; [auto|].
    apply (resume_asleep r now
             (set_loop (idleCallbacks s) n (requests s) (chatResets s) s)).
    repeat split; assumption.
Qed.

Lemma run_asleep evs :
  forall s, Forall (fun e => wakes e = false) evs -> asleep s ->
    asleep (run evs s) /\ requests (run evs s) = requests s.
Proof.
  induction evs as [|e evs IH]; intros s Hq Hs; [auto|].
  inversion Hq as [|? ? He Hevs]; subst.
  destruct (step_asleep e s He Hs) as [Hs1 Hr1].
  destruct (IH (step e s) Hevs Hs1) as [Hs2 Hr2].
  split; [exact Hs2|]. cbn. unfold run in Hr2. rewrite Hr2. exact Hr1.
Qed.

Lemma wake_up s :
  isPaused s = true ->
  (forall now,
     isPaused (markUserActivity now s) = false /\
     messagePollingInterval (markUserActivity now s)
     = Some (Armed (currentPollingInterval s))) /\
  (forall now,
     isPaused (setVoiceActive true now s) = false /\
     messagePollingInterval (setVoiceActive true now s)
     = Some (Armed (currentPollingInterval s))) /\
  isPaused (resumePolling s) = false /\
  messagePollingInterval (resumePolling s)
  = Some (Armed (currentPollingInterval s)).
Proof.
  intros Hp. unfold_script. cbn. rewrite Hp. cbn. auto.
Qed.

(** ** A failed request *)




(** C4 as stated does not hold at its bounds: no flag is set, 700 s have
    passed since the last activity and this is the fifth empty poll in a
    row, yet the client is not paused and the next poll is scheduled. *)
Lemma five_empty_polls_do_not_pause :
  let s := mkState (Some (Armed 15000)) 0 (Some "s1"%string) 0 15000 4
             false false false 0 1 1 0 in
  let s' := fst (checkForNewMessages (RespData []) 700000 s) in
  consecutiveEmptyPolls s' = 5 /\ 700000 - lastActivity s >= 600000 /\
  isPaused s' = false /\ messagePollingInterval s' = Some (Armed 15000).
Proof. cbn. repeat split. discriminate. Qed.

(** C4, amended. When a poll comes back empty while the client is not
    paused and holds a timer handle, no voice or chat flag is set, more than
    600000 ms have passed since the last activity and more than 5 empty
    polls have been counted in a row (this one included), the client is
    paused and its timer is cleared. If no timer callback was queued at that
    moment, then as long as none of markUserActivity, setVoiceActive(true)
    and resumePolling runs, the client stays paused, no timer is armed and
    no request is issued; and each of these three unpauses it and at once
    arms a timer with the interval that is current then. *)
Theorem idle_pause_until_activity :
  forall s messages now,
    isPaused s = false ->
    messagePollingInterval s <> None ->
    isVoiceActive s = false -> isChatActive s = false ->
    (length messages <= lastMessageCount s)%nat ->
    600000 < now - lastActivity s ->
    5 < consecutiveEmptyPolls s + 1 ->
    let s' := fst (checkForNewMessages_resume (RespData messages) now s) in
    isPaused s' = true /\ messagePollingInterval s' = None /\
    (idleCallbacks s = 0%nat ->
     forall evs, Forall (fun e => wakes e = false) evs ->
       let s'' := run evs s' in
       (isPaused s'' = true /\ messagePollingInterval s'' = None /\
        requests s'' = requests s) /\
       (forall t,
          isPaused (markUserActivity t s'') = false /\
          messagePollingInterval (markUserActivity t s'')
          = Some (Armed (currentPollingInterval s''))) /\
       (forall t,
          isPaused (setVoiceActive true t s'') = false /\
          messagePollingInterval (setVoiceActive true t s'')
          = Some (Armed (currentPollingInterval s''))) /\
       (isPaused (resumePolling s'') = false /\
        messagePollingInterval (resumePolling s'')
        = Some (Armed (currentPollingInterval s'')))).
Proof.
  intros s messages now Hp Ht Hv Hc Hlen Htime Hcount s'.
  assert (E0 : (lastMessageCount s <? length messages)%nat = false)
    by (apply Nat.ltb_ge; lia).
  assert (E1 : (600000 <? now - lastActivity s) = true) by (apply Z.ltb_lt; lia).
  assert (E2 : (5 <? consecutiveEmptyPolls s + 1) = true) by (apply Z.ltb_lt; lia).
  assert (Hs' : s' = set_paused true
                       (set_timer None (set_empty (consecutiveEmptyPolls s + 1) s))).
  { subst s'. unfold checkForNewMessages_resume. rewrite E0.
    unfold adjustPollingFrequency, completely_idle. cbn.
    rewrite Hv, Hc, E1, E2. cbn. unfold pausePolling. cbn. rewrite Hp.
    destruct (messagePollingInterval s); [reflexivity|congruence]. }
  rewrite Hs'. split; [reflexivity|]. split; [reflexivity|].
  intros Hi evs Hq s''.
  destruct (run_asleep evs
              (set_paused true
                 (set_timer None (set_empty (consecutiveEmptyPolls s + 1) s))) Hq)
    as [(Hp2 & Ht2 & _) Hr2].
  { repeat split. exact Hi. }
  fold s'' in Hp2, Ht2, Hr2.
  split; [repeat split; assumption|].
  destruct (wake_up s'' Hp2) as (Hm & Hsv & Hrp). auto.
Qed.

Lemma idle_pause_until_activity_witness :
  let s := mkState (Some (Armed 15000)) 0 (Some "s1"%string) 0 15000 5
             false false false 0 1 6 0 in
  let s' := fst (checkForNewMessages_resume (RespData []) 601000 s) in
  isPaused s' = true /\ messagePollingInterval s' = None.
Proof.
  intros s s'.
  destruct (idle_pause_until_activity s [] 601000) as (H1 & H2 & _);
    try reflexivity; try discriminate; cbn; try lia.
  split; assumption.
Defined.

End PollingFacts.

(* ================================================================== *)
(** * Properties of the transcript *)
(* ================================================================== *)

Module ChatFacts.

Import Js Chat.
Local Open Scope string_scope.
Local Open Scope Z_scope.

(** ** Lists and strings *)

Lemma slice_last_short {A} n (l : list A) :
  (length l <= n)%nat -> slice_last n l = l.
Proof.
  intros H. unfold slice_last.
  replace (length l - n)%nat with 0%nat by lia. reflexivity.
Qed.

Lemma slice_last_length {A} n (l : list A) :
  length (slice_last n l) = Nat.min n (length l).
Proof. unfold slice_last. rewrite length_drop. lia. Qed.

Lemma slice_last_cons_not_nil {A} n (x : A) (l : list A) :
  slice_last (S n) (x :: l) <> [].
Proof.
  intros H. apply (f_equal (@length A)) in H.
  rewrite slice_last_length in H. cbn in H. lia.
Qed.

Lemma append_not_empty (a b : string) : a <> "" -> (a ++ b)%string <> "".
Proof. destruct a; [congruence|discriminate]. Qed.

Lemma concat_not_empty sep (x : string) l :
  x <> "" -> String.concat sep (x :: l) <> "".
Proof.
  intros H. cbn. destruct l; [exact H|]. now apply append_not_empty.
Qed.

Lemma context_line_not_empty msg : context_line msg <> "".
Proof. unfold context_line. destruct (String.eqb _ _); discriminate. Qed.

Lemma conversationContext_not_empty m h :
  conversationContext (Some (m :: h)) <> "".
Proof.
  unfold conversationContext.
  change (default [] (Some (m :: h))) with (m :: h).
  destruct (slice_last 30 (m :: h)) as [|x l] eqn:E.
  - now apply slice_last_cons_not_nil in E.
  - cbn [map]. apply concat_not_empty, context_line_not_empty.
Qed.

(** [trim] takes off the white space of Unicode, not only that of ASCII: a
    no-break space, a line feed and an em space around a word go; a string
    of a no-break space and a byte order mark is blank; the last byte of an
    a with grave accent (195 160) is not a space. *)
Example trim_white_space :
  trim (String "194" (String "160" (String "010" ("Hallo"
          ++ String "226" (String "128" (String "131" " "))))))
  = "Hallo" /\
  trim (String "194" (String "160"
          (String "239" (String "187" (String "191" "")))))
  = "" /\
  trim ("voil" ++ String "195" (String "160" ""))
  = ("voil" ++ String "195" (String "160" ""))%string.
Proof. repeat split. Qed.

(** ** The conversation context *)

Lemma slice_last_rev_take {A} n (l : list A) :
  slice_last n l = rev (take n (rev l)).
Proof.
  unfold slice_last. rewrite firstn_rev, rev_involutive. reflexivity.
Qed.

Lemma context_line_spec msg : context_line msg = roleContentLine msg.
Proof.
  unfold context_line, roleContentLine.
  destruct (String.eqb_spec (role msg) "user") as [E|E];
    destruct (decide (role msg = "user")); try contradiction; reflexivity.
Qed.

Lemma concat_newline_spec l :
  String.concat newline (map context_line l)
  = joinedByNewline (map roleContentLine l).
Proof.
  induction l as [|m l IH]; [reflexivity|].
  cbn [map]. destruct l as [|m' l].
  - cbn. apply context_line_spec.
  - change (String.concat newline (context_line m :: map context_line (m' :: l)))
      with (context_line m ++ newline
            ++ String.concat newline (map context_line (m' :: l)))%string.
    rewrite IH, context_line_spec. reflexivity.
Qed.

Lemma context_is_renderContext h :
  context_or_placeholder h = renderContext 30 (default [] h).
Proof.
  destruct h as [[|m l]|]; [reflexivity| |reflexivity].
  unfold context_or_placeholder, js_or.
  destruct (String.eqb_spec (conversationContext (Some (m :: l))) "") as [E|_].
  - now apply conversationContext_not_empty in E.
  - unfold conversationContext. change (default [] (Some (m :: l))) with (m :: l).
    rewrite concat_newline_spec, slice_last_rev_take. reflexivity.
Qed.

Lemma context_not_empty h : context_or_placeholder h <> "".
Proof.
  unfold context_or_placeholder, js_or.
  destruct (String.eqb_spec (conversationContext h) "") as [E|E];
    [discriminate|exact E].
Qed.

(** C9. The context that the scripts compute is the rendering that the
    specification describes, renderContext(30): the placeholder "Keine
    vorherigen Nachrichten" for an empty transcript (or none), and
    otherwise the lines "User: content" (role user) or "Assistant: content"
    (any other role) of the last 30 entries, joined by the newline
    character; it is never the empty string. updateConversationContext
    stores exactly this text as conversation_context when the page has
    variableValues; startVoiceCall stores it and passes it to the call with
    the other values, and on a page that has assistantOverrides without
    variableValues it passes the text alone. *)
Theorem context_placeholder_and_lines :
  forall (w : world),
    let ctx := renderContext 30 (default [] (chatHistory w)) in
    renderContext 30 [] = "Keine vorherigen Nachrichten" /\
    (forall h, context_or_placeholder h = renderContext 30 (default [] h)) /\
    (forall h, renderContext 30 h <> "") /\
    renderContext 30
      [mkChatMessage "user" "Hallo" 0 "chat" false;
       mkChatMessage "assistant" "Guten Tag" 1 "voice" true;
       mkChatMessage "system" "Ende" 2 "chat" false]
    = ("User: Hallo" ++ String "010" ("Assistant: Guten Tag"
                        ++ String "010" "Assistant: Ende"))%string /\
    (forall vv, variableValues w = Some vv ->
       variableValues (updateConversationContext w)
       = Some (<["conversation_context" := ctx]> vv) /\
       forall overrides,
         startVoiceCall true overrides w
         = (set_variableValues (Some (<["conversation_context" := ctx]> vv)) w,
            Some (<["conversation_context" := ctx]> vv))) /\
    (variableValues w = None ->
       updateConversationContext w = w /\
       startVoiceCall true true w = (w, Some {["conversation_context" := ctx]}) /\
       startVoiceCall true false w = (w, None)).
Proof.
  intros w ctx.
  assert (Hctx : ctx = context_or_placeholder (chatHistory w))
    by (subst ctx; symmetry; apply context_is_renderContext).
  clearbody ctx. subst ctx.
  split; [reflexivity|]. split; [exact context_is_renderContext|].
  split.
  { intros h. destruct h as [|m l]; [discriminate|].
    change (m :: l) with (default [] (Some (m :: l))).
    rewrite <- context_is_renderContext. apply context_not_empty. }
  split; [reflexivity|]. split.
  - intros vv Hvv. unfold updateConversationContext, startVoiceCall.
    rewrite Hvv. split; [reflexivity|]. intros _. cbn.
    now rewrite insert_insert_eq.
  - intros Hvv. unfold updateConversationContext, startVoiceCall.
    rewrite Hvv. auto.
Qed.

Lemma context_placeholder_and_lines_witness :
  let w := set_chatHistory
             (Some [mkChatMessage "user" "Hallo" 0 "chat" false;
                    mkChatMessage "assistant" "Guten Tag" 1 "voice" true])
             (fresh 0 (Some "s1") true (Some []) (Some ∅) []) in
  snd (startVoiceCall true true w) ≫= (.!! "conversation_context")
  = Some ("User: Hallo" ++ String "010" "Assistant: Guten Tag")%string.
Proof.
  intros w.
  destruct (context_placeholder_and_lines w) as (_ & _ & _ & _ & H & _).
  destruct (H ∅ eq_refl) as [_ Hs]. rewrite (Hs true). cbn [snd].
  cbn [mbind option_bind]. rewrite lookup_insert_eq. reflexivity.
Defined.

(** ** The fallback of loadChatHistoryFromStorage *)

Lemma roundMagnitude_pos n : 0 < n -> 0 < roundMagnitude n.
Proof.
  intros Hn. unfold roundMagnitude.
  destruct (Z.ltb_spec n (2 ^ 53)) as [_|Hge]; [exact Hn|].
  assert (He : 0 < Z.log2 n - 52).
  { destruct (Z.le_gt_cases (Z.log2 n) 52) as [Hle|Hgt]; [|lia].
    pose proof (Z.log2_spec n Hn) as [_ Hlt].
    assert (2 ^ Z.succ (Z.log2 n) <= 2 ^ 53) by (apply Z.pow_le_mono_r; lia).
    lia. }
  set (e := Z.log2 n - 52) in *.
  assert (Hpow : 0 < 2 ^ e) by (apply Z.pow_pos_nonneg; lia).
  assert (Hle : 2 ^ e <= n).
  { pose proof (Z.log2_spec n Hn) as [Hlo _].
    assert (2 ^ e <= 2 ^ Z.log2 n) by (apply Z.pow_le_mono_r; lia). lia. }
  assert (Hq : 0 < n / 2 ^ e) by (apply Z.div_str_pos; lia).
  cbv zeta. destruct (_ || _); nia.
Qed.

Lemma positive_toNumber d : positive (toNumber d) = (0 <? d).
Proof.
  unfold toNumber.
  destruct (Z.lt_trichotomy d 0) as [Hd|[->|Hd]].
  - pose proof (roundMagnitude_pos (Z.abs d) ltac:(lia)) as Hr.
    replace (d <? 0) with true by (symmetry; apply Z.ltb_lt; lia).
    replace (0 <? d) with false by (symmetry; apply Z.ltb_ge; lia).
    rewrite (Z.sgn_neg d Hd).
    destruct (_ <=? _); cbn [positive negb]; [reflexivity|].
    apply Z.ltb_ge. lia.
  - reflexivity.
  - pose proof (roundMagnitude_pos (Z.abs d) ltac:(lia)) as Hr.
    replace (d <? 0) with false by (symmetry; apply Z.ltb_ge; lia).
    replace (0 <? d) with true by (symmetry; apply Z.ltb_lt; lia).
    rewrite (Z.sgn_pos d Hd).
    destruct (_ <=? _); cbn [positive negb]; [reflexivity|].
    apply Z.ltb_lt. lia.
Qed.

Lemma after_byTimestamp a b va vb :
  stamp a = Finite va -> stamp b = Finite vb ->
  after byTimestamp a b = (va <? vb).
Proof.
  unfold after, byTimestamp, stamp. intros -> ->. cbn [subtract].
  rewrite positive_toNumber.
  destruct (Z.ltb_spec 0 (vb - va)), (Z.ltb_spec va vb); auto; lia.
Qed.

Lemma stampZ_finite key v : stamp key = Finite v -> stampZ key = v.
Proof. unfold stampZ. now intros ->. Qed.

Lemma sort_byTimestamp_head keys :
  keys <> [] ->
  Forall (fun key => exists v, stamp key = Finite v) keys ->
  exists latest rest l1 l2,
    sort byTimestamp keys = latest :: rest /\
    keys = (l1 ++ latest :: l2)%list /\
    Forall (fun key => stampZ key < stampZ latest) l1 /\
    Forall (fun key => stampZ key <= stampZ latest) l2.
Proof.
  induction keys as [|x l IH]; [congruence|].
  intros _ Hall. inversion Hall as [|? ? Hx Hl]; subst.
  destruct l as [|y l'].
  - exists x, [], [], []. cbn. auto.
  - destruct IH as (k & rest & l1 & l2 & Hs & Hk & H1 & H2); [discriminate|exact Hl|].
    assert (Hkin : exists v, stamp k = Finite v).
    { rewrite Forall_forall in Hl. apply Hl. rewrite Hk.
      apply elem_of_app. right. apply elem_of_cons. now left. }
    destruct Hx as [vx Hx], Hkin as [vk Hkin].
    change (sort byTimestamp (x :: y :: l'))
      with (insert byTimestamp x (sort byTimestamp (y :: l'))).
    rewrite Hs. cbn [insert]. rewrite (after_byTimestamp x k vx vk Hx Hkin).
    rewrite <- (stampZ_finite x vx Hx), <- (stampZ_finite k vk Hkin).
    destruct (Z.ltb_spec (stampZ x) (stampZ k)) as [Hlt|Hge].
    + exists k, (insert byTimestamp x rest), (x :: l1), l2.
      rewrite Hk. repeat split; auto.
    + exists x, (k :: rest), [], (y :: l'). repeat split; auto.
      rewrite Hk. apply Forall_app. split.
      * eapply Forall_impl; [exact H1|]. cbn. intros; lia.
      * constructor; [lia|]. eapply Forall_impl; [exact H2|]. cbn. intros; lia.
Qed.

Lemma sort_byTimestamp_NaN keys :
  Forall (fun key => stamp key = NaN) keys -> sort byTimestamp keys = keys.
Proof.
  induction keys as [|x l IH]; [reflexivity|].
  intros Hall. inversion Hall as [|? ? Hx Hl]; subst.
  change (sort byTimestamp (x :: l)) with (insert byTimestamp x (sort byTimestamp l)).
  rewrite (IH Hl). destruct l as [|y l']; [reflexivity|].
  cbn [insert]. unfold after, byTimestamp. fold (stamp x). rewrite Hx.
  destruct (parseInt (timestampField y)); reflexivity.
Qed.

Lemma load_adopts latest rest w :
  stored_truthy (getItem (storageKey w) (localStorage w)) = false ->
  sort byTimestamp (chatHistoryKeys (localStorage w)) = latest :: rest ->
  snd (loadChatHistoryFromStorage w)
  = match getItem latest (localStorage w) with
    | Some (Json h) => h
    | _ => []
    end.
Proof.
  intros Hcur Hs.
  unfold loadChatHistoryFromStorage. rewrite Hcur, Hs. cbn [negb].
  destruct (getItem latest (localStorage w)) as [[h|t]|]; cbn.
  - destruct (truthy (BROWSER_SESSION_ID w)); cbn; destruct h; reflexivity.
  - destruct (String.eqb t "") eqn:Et, (truthy (BROWSER_SESSION_ID w));
      cbn; rewrite ?Et; reflexivity.
  - reflexivity.
Qed.

(** C6 as stated does not hold: the session that began at ...200 saves its
    transcript first, the session that began at ...100 saves its own after
    that, and a new session then adopts the transcript of session ...200,
    which is not the most recently written one. *)
Lemma fallback_is_not_latest_write :
  let older := [mkChatMessage "user" "written first" 1 "chat" false] in
  let newer := [mkChatMessage "user" "written last" 2 "chat" false] in
  let w1 := saveChatHistoryToStorage older
              (fresh 1 (Some "1700000000200_b") true None None []) in
  let w2 := saveChatHistoryToStorage newer
              (set_session (Some "1700000000100_a") (set_clock 2 w1)) in
  let w3 := fresh 3 (Some "1700000000300_c") true None None (localStorage w2) in
  getItem (storageKey w3) (localStorage w3) = None /\
  snd (loadChatHistoryFromStorage w3) = older /\ older <> newer.
Proof. vm_compute. repeat split. discriminate. Qed.

(** C6, amended. When nothing is stored under the key of the current
    session but transcripts of other sessions are, the loader sorts their
    keys by the Number that parseInt reads in the second '_'-separated
    field. If that is a finite number for every key (the field starts with
    an integer; parseInt gives it in double precision, so that integers
    above 2^53 are rounded), the transcript adopted is the one stored under
    the key with the greatest number, the first one in the order of the
    keys when several share it. If it is NaN for every key, as it is for
    session ids of the form session_<ms>_<random>, whose second field is
    the word "session", the order of the keys is left as it is and the
    transcript under the first key is adopted, whenever it was written. *)
Theorem fallback_adopts_greatest_timestamp :
  forall w,
    stored_truthy (getItem (storageKey w) (localStorage w)) = false ->
    chatHistoryKeys (localStorage w) <> [] ->
    let adopted key :=
      match getItem key (localStorage w) with
      | Some (Json h) => h
      | _ => []
      end in
    (Forall (fun key => exists v, parseInt (timestampField key) = Finite v)
       (chatHistoryKeys (localStorage w)) ->
     exists latest l1 l2,
       chatHistoryKeys (localStorage w) = (l1 ++ latest :: l2)%list /\
       Forall (fun key => stampZ key < stampZ latest) l1 /\
       Forall (fun key => stampZ key <= stampZ latest) l2 /\
       snd (loadChatHistoryFromStorage w) = adopted latest) /\
    (Forall (fun key => parseInt (timestampField key) = NaN)
       (chatHistoryKeys (localStorage w)) ->
     exists first rest,
       chatHistoryKeys (localStorage w) = first :: rest /\
       snd (loadChatHistoryFromStorage w) = adopted first) /\
    (forall ms random,
       parseInt (timestampField ("chatHistory_session_" ++ ms ++ "_" ++ random))
       = NaN) /\
    parseInt "9007199254740993" = Finite 9007199254740992.
Proof.
  intros w Hcur Hne adopted. split; [|split; [|split]].
  - intros Hall.
    destruct (sort_byTimestamp_head _ Hne Hall)
      as (latest & rest & l1 & l2 & Hs & Hk & H1 & H2).
    exists latest, l1, l2. repeat split; auto.
    now apply load_adopts with rest.
  - intros Hall. pose proof (sort_byTimestamp_NaN _ Hall) as Hs.
    destruct (chatHistoryKeys (localStorage w)) as [|first rest] eqn:Ek;
      [congruence|].
    exists first, rest. split; [reflexivity|].
    apply load_adopts with rest; [exact Hcur|]. now rewrite Ek.
  - intros ms random. reflexivity.
  - vm_compute. reflexivity.
Qed.

Lemma fallback_adopts_greatest_timestamp_witness :
  let h1 := [mkChatMessage "user" "eins" 1 "chat" false] in
  let h2 := [mkChatMessage "user" "zwei" 2 "chat" false] in
  let w := fresh 3 (Some "1700000000300_c") true None None
             [("chatHistory_1700000000100_a", Json h1);
              ("darkMode", Text "true");
              ("chatHistory_1700000000200_b", Json h2)] in
  let w' := fresh 3 (Some "session_1700000000300_c") true None None
             [("chatHistory_session_1700000000100_a", Json h1);
              ("chatHistory_session_1700000000200_b", Json h2)] in
  snd (loadChatHistoryFromStorage w) = h2 /\
  snd (loadChatHistoryFromStorage w') = h1.
Proof.
  intros h1 h2 w w'. split.
  - destruct (fallback_adopts_greatest_timestamp w) as [H _];
      [reflexivity|discriminate|].
    destruct H as (latest & l1 & l2 & Hk & Hl1 & Hl2 & Hload).
    { repeat constructor; vm_compute; eauto. }
    rewrite Hload. clear Hload.
    change (chatHistoryKeys (localStorage w))
      with ["chatHistory_1700000000100_a"; "chatHistory_1700000000200_b"] in Hk.
    destruct l1 as [|k1 [|k2 l1]]; cbn [app] in Hk.
    + injection Hk as E1 E2. subst latest l2. exfalso.
      inversion Hl2 as [|? ? Hlt _]. vm_compute in Hlt. now apply Hlt.
    + injection Hk as E1 E2 E3. subst k1 latest l2. reflexivity.
    + injection Hk as E1 E2 E3. destruct l1; discriminate E3.
  - destruct (fallback_adopts_greatest_timestamp w') as (_ & H & _);
      [reflexivity|discriminate|].
    destruct H as (first & rest & Hk & Hload).
    { repeat constructor. }
    injection Hk as <- _. exact Hload.
Defined.

(** ** What the handlers leave alone *)

Lemma load_fields w :
  let w' := fst (loadChatHistoryFromStorage w) in
  timing w' = timing w /\
  BROWSER_SESSION_ID w' = BROWSER_SESSION_ID w /\
  chatScript w' = chatScript w /\
  chatHistory w' = chatHistory w /\
  variableValues w' = variableValues w /\
  (is_Some (chatMessages w') <-> is_Some (chatMessages w)).
Proof.
  unfold loadChatHistoryFromStorage, restoreChatMessagesToUI, timing.
  repeat (case_match; cbn in *); simplify_eq; cbn;
    repeat split; auto; intros; eauto.
Qed.

Lemma load_set_processed p c w :
  loadChatHistoryFromStorage (set_processed p c w)
  = (set_processed p c (fst (loadChatHistoryFromStorage w)),
     snd (loadChatHistoryFromStorage w)).
Proof.
  destruct w as [t sid sc dom h ls pt cl vv vs].
  unfold loadChatHistoryFromStorage, restoreChatMessagesToUI, storageKey,
    set_processed, set_localStorage, set_chatMessages.
  cbn -[sort chatHistoryKeys getItem setItem stored_truthy].
  destruct (stored_truthy (getItem _ ls)) eqn:E1; cbn -[sort chatHistoryKeys getItem setItem stored_truthy].
  - rewrite E1. destruct (getItem _ ls) as [[[|m h']|]|]; [| destruct dom | |]; reflexivity.
  - destruct (sort byTimestamp (chatHistoryKeys ls)) as [|latest rest].
    + rewrite E1. reflexivity.
    + destruct (stored_truthy (getItem latest ls)) eqn:E2;
        destruct (truthy sid);
        cbn -[sort chatHistoryKeys getItem setItem stored_truthy];
        rewrite ?E2; try reflexivity;
        destruct (getItem latest ls) as [[[|m h']|]|]; try reflexivity;
        destruct dom; reflexivity.
Qed.

Lemma getItem_setItem k v ls : getItem k (setItem k v ls) = Some v.
Proof.
  induction ls as [|[k' v'] ls IH]; cbn.
  - now rewrite String.eqb_refl.
  - destruct (String.eqb k k') eqn:E; cbn; rewrite ?String.eqb_refl, ?E; auto.
Qed.

Lemma cap_is_slice_last {A} (h : list A) :
  (if (30 <? length h)%nat then slice_last 30 h else h) = slice_last 30 h.
Proof.
  destruct (Nat.ltb_spec 30 (length h)); [reflexivity|].
  symmetry. apply slice_last_short. lia.
Qed.

Lemma chatRole_idem sender : chatRole (chatRole sender) = chatRole sender.
Proof. unfold chatRole. destruct (String.eqb sender "user"); reflexivity. Qed.

Lemma update_context_fields w :
  let w' := updateConversationContext w in
  timing w' = timing w /\ chatHistory w' = chatHistory w /\
  localStorage w' = localStorage w /\ chatMessages w' = chatMessages w /\
  BROWSER_SESSION_ID w' = BROWSER_SESSION_ID w /\ chatScript w' = chatScript w.
Proof.
  unfold updateConversationContext. destruct (variableValues w); cbn; auto 10.
Qed.

(** What [addChatMessageWithSource] does to the transcript of a page that
    has the container and whose history is initialised. *)
Lemma add_appends message sender src w d h :
  chatMessages w = Some d -> chatHistory w = Some h ->
  let h' := slice_last 30
              (h ++ [mkChatMessage (chatRole sender) message (clock w) src false]) in
  let w' := addChatMessageWithSource message sender src w in
  chatHistory w' = Some h' /\
  getItem (storageKey w) (localStorage w') = Some (Json h') /\
  timing w' = timing w /\ BROWSER_SESSION_ID w' = BROWSER_SESSION_ID w /\
  chatScript w' = chatScript w /\
  chatMessages w' = Some (d ++ [Bubble message sender src])%list.
Proof.
  intros Hd Hh h' w'. subst w'. unfold addChatMessageWithSource.
  rewrite Hd, Hh. cbn zeta. rewrite Hh.
  change (default [] (Some h)) with h. rewrite cap_is_slice_last. fold h'.
  unfold updateConversationContext, timing.
  destruct w as [t sid sc dom hist ls pt cl vv vs]. cbn in Hd, Hh. subst.
  destruct vv; cbn; repeat split; apply getItem_setItem.
Qed.

Lemma storageKey_session w w' :
  BROWSER_SESSION_ID w' = BROWSER_SESSION_ID w -> storageKey w' = storageKey w.
Proof. unfold storageKey. now intros ->. Qed.

(** ** A voice transcript is entered twice *)

(** C10. A final voice transcript with a role and a text that is not blank,
    which the duplicate check lets through, on a page that has the chat
    container and the chat script: handleVoiceTranscript pushes an entry
    itself and addChatMessageWithSource, which it then calls, pushes a
    second one with the same role and content; the history in memory and
    the one saved under the session's key end with these two entries (the
    whole is cut to its last 30 entries by the second push). *)
Theorem voice_transcript_appended_twice :
  forall w message r t d,
    vm_role message = Some r -> r <> "" ->
    vm_transcript message = Some t -> trim t <> "" ->
    recentlyProcessed r (trim t) w = false ->
    chatScript w = true -> chatMessages w = Some d ->
    let h0 := match chatHistory w with
              | Some h => h
              | None => snd (loadChatHistoryFromStorage w)
              end in
    let direct := mkChatMessage (chatRole r) t (clock w) "voice" true in
    let viaChat := mkChatMessage (chatRole r) t (clock w) "voice" false in
    let w' := handleVoiceTranscript message w in
    chatHistory w' = Some (slice_last 30 (h0 ++ [direct; viaChat])) /\
    getItem (storageKey w) (localStorage w')
    = Some (Json (slice_last 30 (h0 ++ [direct; viaChat]))) /\
    role direct = role viaChat /\ content direct = content viaChat /\
    ((length h0 <= 28)%nat -> chatHistory w' = Some (h0 ++ [direct; viaChat])%list).
Proof.
  intros w message r t d Hr Hrne Ht Htrim Hrecent Hscript Hdom h0 direct viaChat w'.
  assert (Htne : t <> "") by (intros ->; now apply Htrim).
  apply String.eqb_neq in Hrne as Er. apply String.eqb_neq in Htne as Et.
  apply String.eqb_neq in Htrim as Etrim.
  set (w1 := set_processed ({[(r ++ "-" ++ trim t)%string]} ∪ processedTranscripts w)
               (cleanups w ++ [(clock w + 10000, (r ++ "-" ++ trim t)%string)])%list w).
  set (w2 := match chatHistory w1 with
             | Some _ => w1
             | None =>
                 if chatScript w1 then
                   let '(w, h) := loadChatHistoryFromStorage w1 in
                   set_chatHistory (Some h) w
                 else set_chatHistory (Some []) w1
             end).
  assert (H2 : chatHistory w2 = Some h0 /\ is_Some (chatMessages w2) /\
               clock w2 = clock w /\
               BROWSER_SESSION_ID w2 = BROWSER_SESSION_ID w /\
               chatScript w2 = true).
  { subst w2 h0. change (chatHistory w1) with (chatHistory w).
    change (chatScript w1) with (chatScript w). rewrite Hscript.
    destruct (chatHistory w) as [h|] eqn:Eh.
    - subst w1. cbn. rewrite Hdom. eauto 10.
    - subst w1. rewrite load_set_processed. cbn.
      destruct (load_fields w) as (Htm & Hs & Hsc & _ & _ & Hm).
      unfold timing in Htm. inversion Htm as [[E1 E2 E3]].
      rewrite Hs, Hsc. repeat split; auto.
      apply Hm. rewrite Hdom. eauto. }
  destruct H2 as (Hh2 & [d2 Hd2] & Hc2 & Hs2 & Hsc2).
  set (h1 := (h0 ++ [direct])%list).
  set (w3 := saveChatHistoryToStorage h1 (set_chatHistory (Some h1) w2)).
  assert (Hw' : w' = let w4 := addChatMessageWithSource t (chatRole r) "voice" w3 in
                     if truthy (vm_sessionId message)
                     then set_vapiSessionId (vm_sessionId message) w4 else w4).
  { subst w'. unfold handleVoiceTranscript. rewrite Hr, Ht.
    cbn [truthy default from_option id]. rewrite Er, Et. cbn [negb orb].
    rewrite Hrecent. cbn zeta. rewrite Etrim. cbn [negb].
    fold w1. fold w2. rewrite Hh2. change (default [] (Some h0)) with h0.
    change (clock w1) with (clock w). fold direct. fold h1.
    change (chatScript (set_chatHistory (Some h1) w2)) with (chatScript w2).
    rewrite Hsc2. fold w3.
    change (chatScript w3) with (chatScript w2). rewrite Hsc2. reflexivity. }
  destruct (add_appends t (chatRole r) "voice" w3 d2 h1)
    as (Hh4 & Hl4 & _); [exact Hd2|reflexivity|].
  rewrite chatRole_idem in Hh4, Hl4.
  change (clock w3) with (clock w2) in Hh4, Hl4. rewrite Hc2 in Hh4, Hl4.
  fold viaChat in Hh4, Hl4.
  replace (h1 ++ [viaChat])%list with (h0 ++ [direct; viaChat])%list in Hh4, Hl4
    by (subst h1; now rewrite <- app_assoc).
  rewrite (storageKey_session w w3) in Hl4 by exact Hs2.
  assert (Hh' : chatHistory w' = Some (slice_last 30 (h0 ++ [direct; viaChat]))).
  { rewrite Hw'. cbn zeta. destruct (truthy (vm_sessionId message)); exact Hh4. }
  split; [exact Hh'|]. split.
  { rewrite Hw'. cbn zeta. destruct (truthy (vm_sessionId message)); exact Hl4. }
  split; [reflexivity|]. split; [reflexivity|].
  intros Hlen. rewrite Hh'. f_equal. apply slice_last_short.
  rewrite length_app. cbn. lia.
Qed.

Lemma voice_transcript_appended_twice_witness :
  let w := fresh 0 (Some "s1") true (Some []) None [] in
  let m := mkVoiceMessage (Some "assistant") (Some "Guten Tag") None in
  chatHistory (handleVoiceTranscript m w)
  = Some [mkChatMessage "assistant" "Guten Tag" 0 "voice" true;
          mkChatMessage "assistant" "Guten Tag" 0 "voice" false].
Proof.
  intros w m.
  assert (H := voice_transcript_appended_twice w m "assistant" "Guten Tag" []).
  cbv zeta in H.
  destruct H as (_ & _ & _ & _ & H);
    [reflexivity | discriminate | reflexivity | discriminate
    | reflexivity | reflexivity | reflexivity |].
  apply H. cbn. lia.
Defined.

(** ** The voice path saves without the cap *)

(** C2, at the failing input: a page with the chat script but without the
    chat container, on which 31 final voice transcripts with 31 different
    texts arrive one second apart. Each is pushed and saved by
    handleVoiceTranscript itself; addChatMessageWithSource, which holds the
    cap, returns at its guard. The saved transcript has 31 entries. *)
Theorem voice_transcripts_saved_uncapped :
  let w0 := fresh 0 (Some "s1") true None None [] in
  let said (n : nat) :=
    mkVoiceMessage (Some "user") (Some (String (ascii_of_nat (65 + n)) "")) None in
  let evs := map (fun n => (Z.of_nat n * 1000, EvVoiceTranscript (said n))) (seq 0 31) in
  let w := run evs w0 in
  (length <$> chatHistory w) = Some 31%nat /\
  (exists h, getItem "chatHistory_s1" (localStorage w) = Some (Json h) /\
             length h = 31%nat).
Proof.
  vm_compute. split; [reflexivity|]. eexists. split; reflexivity.
Qed.

(** ** The duplicate check *)

Lemma split_nodash s : nodash s = true -> split "-" s = [s].
Proof.
  induction s as [|c s IH]; cbn -[Ascii.eqb]; [reflexivity|].
  intros [Hc Hs]%andb_prop. apply negb_true_iff in Hc. rewrite Hc.
  now rewrite (IH Hs).
Qed.

Lemma append_cons c (a b : string) :
  (String c a ++ b)%string = String c (a ++ b).
Proof. reflexivity. Qed.

Lemma split_join r k :
  nodash r = true -> split "-" (r ++ "-" ++ k) = r :: split "-" k.
Proof.
  induction r as [|c r IH]; [reflexivity|].
  rewrite append_cons. cbn -[Ascii.eqb].
  intros [Hc Hs]%andb_prop. apply negb_true_iff in Hc. rewrite Hc.
  now rewrite (IH Hs).
Qed.

Lemma sameTranscript_self r k :
  nodash r = true -> nodash k = true ->
  sameTranscript r k (r ++ "-" ++ k) = true.
Proof.
  intros Hr Hk. unfold sameTranscript, split2.
  rewrite (split_join r k Hr), (split_nodash k Hk).
  now rewrite !String.eqb_refl.
Qed.

Lemma nodash_join a b : nodash (a ++ "-" ++ b) = false.
Proof.
  induction a as [|c a IH]; [reflexivity|].
  rewrite append_cons. cbn -[Ascii.eqb]. rewrite IH. apply andb_false_r.
Qed.

Lemma join_inj r k a b :
  nodash r = true -> nodash k = true ->
  (r ++ "-" ++ k)%string = (a ++ "-" ++ b)%string -> r = a /\ k = b.
Proof.
  revert a. induction r as [|c r IH]; intros [|c' a] Hr Hk E.
  - change (String "-" k = String "-" b) in E. injection E as ->. auto.
  - change (String "-" k = String c' (a ++ "-" ++ b)) in E.
    injection E as <- ->. now rewrite nodash_join in Hk.
  - change (String c (r ++ "-" ++ k) = String "-" b) in E.
    injection E as -> _. discriminate Hr.
  - change (String c (r ++ "-" ++ k) = String c' (a ++ "-" ++ b)) in E.
    injection E as -> E. cbn -[Ascii.eqb] in Hr.
    apply andb_prop in Hr as [_ Hr].
    destruct (IH a Hr Hk E) as [-> ->]. auto.
Qed.

Lemma recentlyProcessed_elem r k w :
  nodash r = true -> nodash k = true ->
  (r ++ "-" ++ k)%string ∈ processedTranscripts w ->
  recentlyProcessed r k w = true.
Proof.
  intros Hr Hk Hin. unfold recentlyProcessed.
  apply existsb_exists. exists (r ++ "-" ++ k)%string. split.
  - apply list_elem_of_In, elem_of_elements, Hin.
  - now apply sameTranscript_self.
Qed.

Lemma pending_app id cs cs' :
  pending id (cs ++ cs') = (pending id cs + pending id cs')%nat.
Proof. unfold pending. now rewrite filter_app, length_app. Qed.

Lemma pending_zero id cs :
  pending id cs = 0%nat -> Forall (fun c => snd c <> id) cs.
Proof.
  unfold pending. induction cs as [|c cs IH]; [constructor|].
  rewrite filter_cons. case_decide as Hc; cbn; [discriminate|].
  intros Hp. constructor; auto.
Qed.

Lemma pending_split id (f : Z * string -> bool) cs :
  pending id cs
  = (pending id (filter (fun c => f c) cs)
     + pending id (filter (fun c => negb (f c)) cs))%nat.
Proof.
  unfold pending. induction cs as [|c cs IH]; [reflexivity|].
  rewrite (filter_cons (fun c => f c)), (filter_cons (fun c => negb (f c))).
  rewrite (filter_cons (fun c => snd c = id) c cs).
  destruct (f c) eqn:Ef; cbn;
    destruct (decide True) as [_|[]]; [|exact I| |exact I];
    destruct (decide False) as [[]|_];
    rewrite filter_cons; case_decide; cbn; lia.
Qed.

Lemma pending_elem id cs :
  id ∈ map snd cs <-> (0 < pending id cs)%nat.
Proof.
  unfold pending. induction cs as [|c cs IH].
  - cbn. split; [intros H; inversion H|lia].
  - rewrite filter_cons. change (map snd (c :: cs)) with (snd c :: map snd cs).
    rewrite elem_of_cons. case_decide as Hc; cbn.
    + split; [lia|auto].
    + rewrite IH. split; [intros [E|H']; [congruence|exact H']|auto].
Qed.

Lemma timing_set_chatMessages d w : timing (set_chatMessages d w) = timing w.
Proof. reflexivity. Qed.

Lemma timing_set_chatHistory h w : timing (set_chatHistory h w) = timing w.
Proof. reflexivity. Qed.

Lemma timing_set_vapiSessionId o w : timing (set_vapiSessionId o w) = timing w.
Proof. reflexivity. Qed.

Lemma timing_save h w : timing (saveChatHistoryToStorage h w) = timing w.
Proof. reflexivity. Qed.

Lemma timing_update w : timing (updateConversationContext w) = timing w.
Proof. apply update_context_fields. Qed.

Lemma timing_load w : timing (fst (loadChatHistoryFromStorage w)) = timing w.
Proof. apply load_fields. Qed.

Lemma timing_load_history w :
  timing (let '(w0, h) := loadChatHistoryFromStorage w in
          set_chatHistory (Some h) w0) = timing w.
Proof.
  pose proof (timing_load w) as H.
  destruct (loadChatHistoryFromStorage w) as [w0 h]. exact H.
Qed.

Lemma timing_add message sender src w :
  timing (addChatMessageWithSource message sender src w) = timing w.
Proof.
  unfold addChatMessageWithSource.
  destruct (chatMessages w) as [d|]; [|reflexivity].
  cbn zeta. rewrite timing_set_chatMessages, timing_update, timing_save,
    timing_set_chatHistory.
  destruct (chatHistory w); [reflexivity|apply timing_load_history].
Qed.

Lemma timing_display messageData w :
  timing (displayNewMessage messageData w) = timing w.
Proof.
  unfold displayNewMessage. destruct (chatScript w); [apply timing_add|].
  destruct (chatMessages w); reflexivity.
Qed.

Lemma timing_clear w : timing (clearChatHistory w) = timing w.
Proof. unfold clearChatHistory. cbn. destruct (chatMessages w); reflexivity. Qed.

Lemma timing_initialize w : timing (initializeChatHistory w) = timing w.
Proof.
  unfold initializeChatHistory. rewrite timing_update.
  destruct (chatHistory w); [reflexivity|apply timing_load_history].
Qed.

Lemma timing_startVoiceCall vapi overrides w :
  timing (fst (startVoiceCall vapi overrides w)) = timing w.
Proof.
  unfold startVoiceCall. destruct vapi; [|reflexivity].
  destruct (variableValues w); [reflexivity|].
  destruct overrides; reflexivity.
Qed.

Lemma timing_voice_new message w r t :
  vm_role message = Some r -> r <> "" ->
  vm_transcript message = Some t -> t <> "" ->
  recentlyProcessed r (trim t) w = false ->
  timing (handleVoiceTranscript message w) = noted r (trim t) w.
Proof.
  intros Hr Hrne Ht Htne Hrecent.
  apply String.eqb_neq in Hrne as Er. apply String.eqb_neq in Htne as Et.
  unfold handleVoiceTranscript. rewrite Hr, Ht.
  cbn [truthy default from_option id]. rewrite Er, Et. cbn [negb orb].
  rewrite Hrecent. cbn zeta.
  destruct (negb (String.eqb (trim t) "")); [|reflexivity].
  match goal with |- context [truthy ?x] => destruct (truthy x) end;
    rewrite ?timing_set_vapiSessionId;
    (match goal with |- timing (if ?b then _ else _) = _ => destruct b end);
    rewrite ?timing_add;
    (match goal with |- timing (if ?b then _ else _) = _ => destruct b end);
    rewrite ?timing_save, ?timing_set_chatHistory;
    (match goal with |- timing (match ?h with Some _ => _ | None => _ end) = _ =>
       destruct h end); try reflexivity;
    (match goal with |- timing (if ?b then _ else _) = _ => destruct b end);
    try reflexivity; rewrite timing_load_history; reflexivity.
Qed.

Lemma timing_voice message w :
  timing (handleVoiceTranscript message w) = timing w \/
  exists r t,
    recentlyProcessed r (trim t) w = false /\
    timing (handleVoiceTranscript message w) = noted r (trim t) w.
Proof.
  destruct (vm_role message) as [r|] eqn:Hr;
    [|left; unfold handleVoiceTranscript; rewrite Hr; cbn;
      now rewrite orb_true_r].
  destruct (vm_transcript message) as [t|] eqn:Ht;
    [|left; unfold handleVoiceTranscript; now rewrite Ht].
  destruct (String.eqb_spec r "") as [->|Hrne];
    [left; unfold handleVoiceTranscript; rewrite Hr; cbn;
     now rewrite orb_true_r|].
  destruct (String.eqb_spec t "") as [->|Htne];
    [left; unfold handleVoiceTranscript; now rewrite Ht|].
  destruct (recentlyProcessed r (trim t) w) eqn:Hrecent.
  - left. unfold handleVoiceTranscript. rewrite Hr, Ht.
    apply String.eqb_neq in Hrne as Er. apply String.eqb_neq in Htne as Et.
    cbn [truthy default from_option id]. rewrite Er, Et. cbn [negb orb].
    now rewrite Hrecent.
  - right. exists r, t. split; [exact Hrecent|].
    now apply timing_voice_new.
Qed.

Lemma timing_handle e w :
  e <> EvCleanup ->
  timing (handle e w) = timing w \/
  exists r k,
    recentlyProcessed r k w = false /\ timing (handle e w) = noted r k w.
Proof.
  intros He. destruct e; cbn [handle].
  - destruct (timing_voice message w) as [H|(r & t & H1 & H2)]; eauto.
  - left. apply timing_display.
  - left. unfold addChatMessage. apply timing_add.
  - left. apply timing_clear.
  - left. apply timing_initialize.
  - left. apply timing_startVoiceCall.
  - congruence.
Qed.

Lemma tidy_timing w w' : timing w' = timing w -> tidy w -> tidy w'.
Proof.
  unfold timing, tidy. intros E H r k Hr Hk.
  injection E as _ -> ->. now apply H.
Qed.

Lemma watching_timing d id w w' :
  timing w' = timing w -> watching d id w -> watching d id w'.
Proof.
  unfold timing, watching. intros E H. injection E as -> -> ->. exact H.
Qed.

Lemma tidy_fresh t0 sid script dom vv ls : tidy (fresh t0 sid script dom vv ls).
Proof.
  intros r k _ _. cbn. rewrite decide_False; [reflexivity|]. set_solver.
Qed.

Lemma tidy_advance t w : tidy w -> tidy (advance t w).
Proof. intros H. exact H. Qed.

Lemma pending_cons id c cs :
  pending id (c :: cs)
  = ((if decide (snd c = id) then 1 else 0) + pending id cs)%nat.
Proof.
  unfold pending. rewrite filter_cons. case_decide; reflexivity.
Qed.

Lemma tidy_cleanup w : tidy w -> tidy (cleanup w).
Proof.
  intros H. unfold cleanup.
  destruct (cleanups w) as [|[due ent] rest] eqn:Ec; [exact H|].
  destruct (due <=? clock w); [|exact H].
  intros r k Hr Hk. specialize (H r k Hr Hk). rewrite Ec in H.
  cbn [cleanups processedTranscripts set_processed].
  rewrite pending_cons in H. cbn [snd] in H.
  destruct (decide (ent = (r ++ "-" ++ k)%string)) as [->|Hne].
  - rewrite decide_False
      by (intros [_ Hn]%elem_of_difference; apply Hn; now apply elem_of_singleton).
    destruct (decide (_ ∈ processedTranscripts w)); lia.
  - cbn [Nat.add] in H. rewrite H.
    destruct (decide ((r ++ "-" ++ k)%string ∈ processedTranscripts w))
      as [Hin|Hout].
    + rewrite decide_True; [reflexivity|].
      apply elem_of_difference. split; [exact Hin|].
      intros Hs%elem_of_singleton. congruence.
    + rewrite decide_False; [reflexivity|].
      intros [Hin _]%elem_of_difference. contradiction.
Qed.

Lemma tidy_noted r k w w' :
  recentlyProcessed r k w = false -> timing w' = noted r k w ->
  tidy w -> tidy w'.
Proof.
  unfold timing, noted, tidy. intros Hrecent E H r' k' Hr' Hk'.
  injection E as _ -> ->. specialize (H r' k' Hr' Hk').
  rewrite pending_app. unfold pending at 2.
  rewrite filter_cons, filter_nil. cbn [snd].
  destruct (decide ((r ++ "-" ++ k)%string = (r' ++ "-" ++ k')%string)) as [E|Hne].
  - symmetry in E. destruct (join_inj r' k' r k Hr' Hk' E) as [-> ->].
    rewrite decide_True
      by (apply elem_of_union; left; now apply elem_of_singleton).
    destruct (decide ((r ++ "-" ++ k)%string ∈ processedTranscripts w)) as [Hin|_].
    + rewrite (recentlyProcessed_elem r k w Hr' Hk' Hin) in Hrecent. discriminate.
    + rewrite H. reflexivity.
  - cbn [length]. rewrite H, Nat.add_0_r.
    destruct (decide ((r' ++ "-" ++ k')%string ∈ processedTranscripts w))
      as [Hin|Hout].
    + rewrite decide_True by (apply elem_of_union; now right). reflexivity.
    + rewrite decide_False; [reflexivity|].
      intros [Hs|Hs]%elem_of_union; [|contradiction].
      apply elem_of_singleton in Hs. congruence.
Qed.

Lemma is_cleanup e : {e = EvCleanup} + {e <> EvCleanup}.
Proof. destruct e; (now left) || (right; discriminate). Qed.

Lemma tidy_handle e w : tidy w -> tidy (handle e w).
Proof.
  intros H. destruct (is_cleanup e) as [->|He]; [now apply tidy_cleanup|].
  destruct (timing_handle e w He) as [E|(r & k & Hrecent & E)].
  - exact (tidy_timing w _ E H).
  - exact (tidy_noted r k w _ Hrecent E H).
Qed.

Lemma tidy_run evs : forall w, tidy w -> tidy (run evs w).
Proof.
  induction evs as [|[t e] evs IH]; intros w H; [exact H|].
  apply IH. unfold step. cbn [fst snd]. apply tidy_handle, tidy_advance, H.
Qed.

Lemma watching_advance d id t w :
  t < d -> watching d id w -> watching d id (advance t w).
Proof.
  intros Ht (Hc & Hd & Hin & Hall). unfold watching, advance.
  cbn [clock cleanups processedTranscripts set_clock].
  repeat split; try assumption; lia.
Qed.

Lemma watching_cleanup d id w : watching d id w -> watching d id (cleanup w).
Proof.
  intros H. pose proof H as (Hc & Hd & Hin & Hall). unfold cleanup.
  destruct (cleanups w) as [|[due ent] rest] eqn:Ec; [exact H|].
  destruct (Z.leb_spec due (clock w)) as [Hdue|_]; [|exact H].
  inversion Hall as [|? ? Hhead Hrest]; subst. cbn [fst snd] in Hhead.
  unfold watching. cbn [clock cleanups processedTranscripts set_processed].
  repeat split; try assumption.
  apply elem_of_difference. split; [exact Hin|].
  intros Hs%elem_of_singleton. symmetry in Hs. specialize (Hhead Hs). lia.
Qed.

Lemma watching_handle d id e w : watching d id w -> watching d id (handle e w).
Proof.
  intros H. destruct (is_cleanup e) as [->|He]; [now apply watching_cleanup|].
  destruct (timing_handle e w He) as [E|(r & k & _ & E)].
  - exact (watching_timing d id w _ E H).
  - destruct H as (Hc & Hd & Hin & Hall). unfold timing, noted in E.
    injection E as E1 E2 E3. unfold watching. rewrite E1, E2, E3.
    repeat split; try assumption.
    + apply elem_of_union. now right.
    + apply Forall_app. split; [exact Hall|].
      constructor; [|constructor]. cbn. intros _. exact Hd.
Qed.

Lemma watching_run d id evs :
  forall w, Forall (fun te => fst te < d) evs ->
    watching d id w -> watching d id (run evs w).
Proof.
  induction evs as [|[t e] evs IH]; intros w Hev H; [exact H|].
  inversion Hev as [|? ? Ht Hevs]; subst. cbn in Ht.
  apply IH; [exact Hevs|]. unfold step. cbn [fst snd].
  apply watching_handle, watching_advance; assumption.
Qed.

(** C3 as stated does not hold: the same assistant message is handed to
    displayNewMessage twice, one second apart, and the transcript gets two
    entries; when it comes first as a voice transcript and a second later
    through displayNewMessage, the transcript gets three. *)
Lemma displayNewMessage_keeps_duplicates :
  let w := fresh 0 (Some "s1") true (Some []) None [] in
  let md := mkMessageData (Some "Ihr Termin ist gebucht") (Some "assistant")
              (Some "voice-function") in
  let vm := mkVoiceMessage (Some "assistant") (Some "Ihr Termin ist gebucht") None in
  (length <$> chatHistory
     (run [(1000, EvDisplayNewMessage md); (2000, EvDisplayNewMessage md)] w))
  = Some 2%nat /\
  (length <$> chatHistory
     (run [(1000, EvVoiceTranscript vm); (2000, EvDisplayNewMessage md)] w))
  = Some 3%nat.
Proof. vm_compute. split; reflexivity. Qed.

(** C3, amended. In any world that the page can reach: when a voice
    transcript whose role and trimmed text hold no '-' passes the check of
    handleVoiceTranscript, a transcript with the same role and the same
    trimmed text that arrives less than 10000 ms later, whatever happens in
    between, is recognised and dropped: handleVoiceTranscript returns
    without changing anything, the transcript included. displayNewMessage
    makes no such check: on a page with the chat script and the container,
    each call appends its entry, also when it is given the same message
    again. *)
Theorem duplicate_transcript_dropped :
  (forall t0 sid script dom vv ls evs t1 m1 between t2 m2 r tr1 tr2,
     vm_role m1 = Some r -> vm_transcript m1 = Some tr1 ->
     vm_role m2 = Some r -> vm_transcript m2 = Some tr2 ->
     trim tr1 = trim tr2 ->
     r <> "" -> tr1 <> "" ->
     nodash r = true -> nodash (trim tr1) = true ->
     let w1 := advance t1 (run evs (fresh t0 sid script dom vv ls)) in
     recentlyProcessed r (trim tr1) w1 = false ->
     Forall (fun te => fst te < clock w1 + 10000) between ->
     t2 < clock w1 + 10000 ->
     let w3 := advance t2 (run between (handleVoiceTranscript m1 w1)) in
     handleVoiceTranscript m2 w3 = w3) /\
  (forall messageData w d h,
     chatScript w = true -> chatMessages w = Some d -> chatHistory w = Some h ->
     let entry :=
       mkChatMessage (chatRole (js_or (md_role messageData) "assistant"))
         (js_or (md_content messageData) "Keine Nachricht") (clock w)
         (js_or (md_source messageData) "voice-function") false in
     chatHistory (displayNewMessage messageData w)
     = Some (slice_last 30 (h ++ [entry])) /\
     chatHistory (displayNewMessage messageData (displayNewMessage messageData w))
     = Some (slice_last 30 (slice_last 30 (h ++ [entry]) ++ [entry]))).
Proof.
  split.
  - intros t0 sid script dom vv ls evs t1 m1 between t2 m2 r tr1 tr2
      Hr1 Ht1 Hr2 Ht2 Htrim Hrne Htne Hr Hk w1 Hrecent Hbetween Ht2lt w3.
    assert (Htidy : tidy w1) by apply tidy_advance, tidy_run, tidy_fresh.
    clearbody w1.
    set (ent := (r ++ "-" ++ trim tr1)%string).
    set (d := clock w1 + 10000) in *.
    assert (Hout : ent ∉ processedTranscripts w1).
    { intros Hin. rewrite (recentlyProcessed_elem r _ w1 Hr Hk Hin) in Hrecent.
      discriminate. }
    assert (Hnone : Forall (fun c => snd c <> ent) (cleanups w1)).
    { apply pending_zero. pose proof (Htidy r (trim tr1) Hr Hk) as Hp.
      fold ent in Hp. now rewrite decide_False in Hp. }
    assert (Hw : watching d ent (handleVoiceTranscript m1 w1)).
    { pose proof (timing_voice_new m1 w1 r tr1 Hr1 Hrne Ht1 Htne Hrecent) as E.
      unfold timing, noted in E. injection E as E1 E2 E3.
      unfold watching. rewrite E1, E2, E3. fold ent. fold d.
      split; [unfold d; lia|]. split; [unfold d; lia|]. split.
      - apply elem_of_union. left. now apply elem_of_singleton.
      - apply Forall_app. split.
        + eapply Forall_impl; [exact Hnone|]. cbn. intros c Hc Hid. contradiction.
        + constructor; [|constructor]. cbn. intros _. lia. }
    apply (watching_run d ent between _ Hbetween) in Hw.
    apply (watching_advance d ent t2 _ Ht2lt) in Hw. fold w3 in Hw.
    destruct Hw as (_ & _ & Hin & _).
    assert (Hdup : recentlyProcessed r (trim tr2) w3 = true).
    { rewrite <- Htrim. apply recentlyProcessed_elem; assumption. }
    unfold handleVoiceTranscript. rewrite Hr2, Ht2.
    cbn [default from_option id].
    destruct (negb (truthy (Some tr2)) || negb (truthy (Some r))); [reflexivity|].
    now rewrite Hdup.
  - intros messageData w d h Hscript Hd Hh entry.
    assert (Hdisp : forall w', chatScript w' = true ->
              displayNewMessage messageData w'
              = addChatMessageWithSource
                  (js_or (md_content messageData) "Keine Nachricht")
                  (js_or (md_role messageData) "assistant")
                  (js_or (md_source messageData) "voice-function") w').
    { intros w' Hw'. unfold displayNewMessage. now rewrite Hw'. }
    rewrite (Hdisp w Hscript).
    destruct (add_appends (js_or (md_content messageData) "Keine Nachricht")
                (js_or (md_role messageData) "assistant")
                (js_or (md_source messageData) "voice-function") w d h Hd Hh)
      as (H1 & _ & Htm & _ & Hsc & Hd1).
    fold entry in H1. split; [exact H1|].
    rewrite Hdisp by (rewrite Hsc; exact Hscript).
    destruct (add_appends (js_or (md_content messageData) "Keine Nachricht")
                (js_or (md_role messageData) "assistant")
                (js_or (md_source messageData) "voice-function") _ _ _ Hd1 H1)
      as (H2 & _).
    unfold timing in Htm. injection Htm as Hc _ _. rewrite Hc in H2.
    exact H2.
Qed.

Lemma duplicate_transcript_dropped_witness :
  let m := mkVoiceMessage (Some "assistant") (Some " Guten Tag ") None in
  let m' := mkVoiceMessage (Some "assistant")
              (Some (String "G" (String "u" (String "t" (String "e" (String "n"
                (String " " (String "T" (String "a" (String "g"
                  (String "194" (String "160" "")))))))))))) None in
  let w1 := advance 1000 (run [] (fresh 0 (Some "s1") true (Some []) None [])) in
  let w3 := advance 10999
              (run [(4000, EvAddChatMessage "Hallo" "user"); (5000, EvCleanup)]
                 (handleVoiceTranscript m w1)) in
  handleVoiceTranscript m' w3 = w3.
Proof.
  intros m m'.
  apply (proj1 duplicate_transcript_dropped 0 (Some "s1") true (Some []) None []
           [] 1000 m [(4000, EvAddChatMessage "Hallo" "user"); (5000, EvCleanup)]
           10999 m' "assistant" " Guten Tag "
           (String "G" (String "u" (String "t" (String "e" (String "n"
             (String " " (String "T" (String "a" (String "g"
               (String "194" (String "160" "")))))))))))).
  - reflexivity.
  - reflexivity.
  - reflexivity.
  - reflexivity.
  - reflexivity.
  - discriminate.
  - discriminate.
  - reflexivity.
  - reflexivity.
  - vm_compute. reflexivity.
  - repeat constructor.
  - vm_compute. reflexivity.
Defined.

(** The check itself misses a repeated transcript whose text holds a '-':
    [split('-', 2)] keeps only the part of the text before its first '-',
    which never equals the whole text. Both deliveries are entered. *)
Lemma hyphenated_duplicate_not_detected :
  let w := fresh 0 (Some "s1") true None None [] in
  let vm := mkVoiceMessage (Some "assistant") (Some "E-Mail gesendet") None in
  sameTranscript "assistant" "E-Mail gesendet" "assistant-E-Mail gesendet" = false /\
  (length <$> chatHistory
     (run [(1000, EvVoiceTranscript vm); (2000, EvVoiceTranscript vm)] w))
  = Some 2%nat.
Proof. vm_compute. split; reflexivity. Qed.

End ChatFacts.

(* ================================================================== *)
(** * Further properties of the polling client *)
(* ================================================================== *)

Module PollingMore.

Import Polling PollingFacts.

Lemma adjust_frame now s :
  let a := adjustPollingFrequency now s in
  currentSessionId a = currentSessionId s /\
  lastMessageCount a = lastMessageCount s /\
  consecutiveEmptyPolls a = consecutiveEmptyPolls s /\
  lastActivity a = lastActivity s /\
  isVoiceActive a = isVoiceActive s /\ isChatActive a = isChatActive s /\
  requests a = requests s /\ idleCallbacks a = idleCallbacks s.
Proof.
  unfold adjustPollingFrequency, pausePolling.
  destruct (completely_idle now s).
  - destruct (messagePollingInterval s); [destruct (negb (isPaused s))|];
      cbn; auto 10.
  - cbn. destruct (25 <? consecutiveEmptyPolls s); cbn; auto 10.
Qed.

Lemma resume_session r now s :
  currentSessionId (fst (checkForNewMessages_resume r now s)) = currentSessionId s.
Proof.
  unfold checkForNewMessages_resume.
  destruct r as [messages| |].
  - destruct (lastMessageCount s <? length messages)%nat; cbn [fst];
      match goal with |- context [adjustPollingFrequency now ?x] =>
        destruct (adjust_frame now x) as [E _];
        destruct (isPaused (adjustPollingFrequency now x)); cbn; now rewrite E
      end.
  - cbn. destruct (isPaused s); reflexivity.
  - cbn [fst].
    match goal with |- context [adjustPollingFrequency now ?x] =>
      destruct (adjust_frame now x) as [E _];
      destruct (isPaused (adjustPollingFrequency now x)); cbn; now rewrite E
    end.
Qed.

Lemma step_session e s :
  truthy (currentSessionId s) = true ->
  currentSessionId (step e s) = currentSessionId s.
Proof.
  intros H. destruct e; cbn [step].
  - unfold startMessagePolling, stopMessagePolling.
    destruct (messagePollingInterval s); reflexivity.
  - unfold stopMessagePolling. destruct (messagePollingInterval s); reflexivity.
  - unfold markUserActivity. cbn. destruct (isPaused s); reflexivity.
  - unfold setVoiceActive. destruct active; cbn; [|reflexivity].
    destruct (isPaused s); reflexivity.
  - unfold resumePolling. destruct (isPaused s); reflexivity.
  - unfold initializeMessagePolling. now rewrite H.
  - unfold startMessagePollingWhenReady. rewrite H. cbn.
    now rewrite andb_false_r.
  - unfold clearSessionMessages. split_ifs; reflexivity.
  - destruct (chatResets s); reflexivity.
  - destruct (messagePollingInterval s) as [[d|]|]; reflexivity.
  - destruct (idleCallbacks s); [reflexivity|].
    unfold checkForNewMessages_fetch. cbn. rewrite H. reflexivity.
  - destruct (inFlight s); [reflexivity|]. now rewrite resume_session.
Qed.

(** X1. The session id of the polling client is written once: when it is
    set, no call and no event of the browser's loop changes it, whatever
    ids initializeMessagePolling or startMessagePollingWhenReady are
    offered later. initializeMessagePolling answers true exactly when a
    session id is known afterwards, and of the two ids it is offered it
    takes the one of VAPI_CONFIG first. *)
Theorem session_id_written_once :
  forall s,
    truthy (currentSessionId s) = true ->
    (forall evs, currentSessionId (run evs s) = currentSessionId s) /\
    (forall cfgId winId s0,
       snd (initializeMessagePolling cfgId winId s0)
       = truthy (currentSessionId (fst (initializeMessagePolling cfgId winId s0)))) /\
    (forall cfgId winId s0,
       truthy (currentSessionId s0) = false -> truthy cfgId = true ->
       currentSessionId (fst (initializeMessagePolling cfgId winId s0)) = cfgId).
Proof.
  intros s H. split; [|split].
  - intros evs. revert s H.
    induction evs as [|e evs IH]; intros s H; [reflexivity|].
    cbn. unfold run in IH. rewrite IH.
    + now apply step_session.
    + now rewrite step_session.
  - intros c w s0. unfold initializeMessagePolling.
    destruct (truthy (currentSessionId s0)) eqn:E0; cbn; [now rewrite E0|].
    destruct (truthy c) eqn:Ec; cbn; [now rewrite Ec|].
    destruct (truthy w) eqn:Ew; cbn; [now rewrite Ew|now rewrite E0].
  - intros c w s0 E0 Ec. unfold initializeMessagePolling.
    now rewrite E0, Ec.
Qed.

Lemma session_id_written_once_witness :
  let s := set_session (Some "s1"%string) (init 0) in
  currentSessionId
    (run [EvInitializeMessagePolling (Some "s2"%string) None;
          EvStartWhenReady None (Some "s3"%string);
          EvStartMessagePolling "s4"%string] s)
  = Some "s1"%string.
Proof.
  intros s.
  destruct (session_id_written_once s) as (H & _); [reflexivity|].
  apply H.
Defined.

Lemma resume_shown messages now s :
  let out := checkForNewMessages_resume (RespData messages) now s in
  snd out
  = (if (lastMessageCount s <? length messages)%nat
     then rev (take (length messages - lastMessageCount s) messages) else []) /\
  lastMessageCount (fst out)
  = (if (lastMessageCount s <? length messages)%nat
     then length messages else lastMessageCount s).
Proof.
  unfold checkForNewMessages_resume.
  destruct (lastMessageCount s <? length messages)%nat; cbn [fst snd];
    match goal with |- context [adjustPollingFrequency now ?x] =>
      destruct (adjust_frame now x) as (_ & E & _);
      destruct (isPaused (adjustPollingFrequency now x)); cbn;
      rewrite E; cbn; auto
    end.
Qed.

(** X2. The inbox comes newest first. When the client has shown the
    messages [old] and the inbox now holds [new ++ old], the poll shows
    exactly the messages of [new], oldest first, and remembers the new
    length; a second poll that finds the same inbox shows nothing. *)
Theorem new_messages_shown_once :
  forall (old new : list MessageData) now s,
    lastMessageCount s = length old ->
    let out := checkForNewMessages_resume (RespData (new ++ old)) now s in
    snd out = rev new /\
    lastMessageCount (fst out) = length (new ++ old) /\
    (forall now',
       snd (checkForNewMessages_resume (RespData (new ++ old)) now' (fst out)) = []).
Proof.
  intros old new now s Hlast out.
  destruct (resume_shown (new ++ old) now s) as [H1 H2]. fold out in H1, H2.
  rewrite Hlast in H1, H2.
  assert (Htake : take (length (new ++ old) - length old) (new ++ old) = new).
  { rewrite length_app.
    replace (length new + length old - length old)%nat with (length new) by lia.
    apply take_app_length. }
  rewrite Htake in H1.
  destruct (length old <? length (new ++ old))%nat eqn:Eb.
  - split; [exact H1|]. split; [exact H2|].
    intros now'. destruct (resume_shown (new ++ old) now' (fst out)) as [H3 _].
    rewrite H3, H2, Nat.ltb_irrefl. reflexivity.
  - apply Nat.ltb_ge in Eb.
    assert (new = [])
      by (destruct new; [reflexivity|rewrite length_app in Eb; cbn in Eb; lia]).
    subst new. split; [exact H1|]. split; [exact H2|].
    intros now'. destruct (resume_shown ([] ++ old) now' (fst out)) as [H3 _].
    rewrite H3, H2, Nat.ltb_irrefl. reflexivity.
Qed.

Lemma new_messages_shown_once_witness :
  let m1 := mkMessageData (Some "eins"%string) None None in
  let m2 := mkMessageData (Some "zwei"%string) None None in
  let m3 := mkMessageData (Some "drei"%string) None None in
  let s := set_lastMessageCount 1 (set_session (Some "s1"%string) (init 0)) in
  snd (checkForNewMessages_resume (RespData ([m3; m2] ++ [m1])) 1000 s) = [m2; m3].
Proof.
  intros m1 m2 m3 s.
  destruct (new_messages_shown_once [m1] [m3; m2] 1000 s) as (H & _);
    [reflexivity|]. exact H.
Defined.

(** X3. The client only counts. When the inbox it finds is not longer than
    the number of messages it has counted so far, it shows nothing and
    keeps its count, whatever the messages are: after the inbox has been
    emptied elsewhere, messages that arrive are not shown until there are
    more of them than before. The poll counts as an empty one. *)
Theorem shorter_inbox_shows_nothing :
  forall messages now s,
    (length messages <= lastMessageCount s)%nat ->
    let out := checkForNewMessages_resume (RespData messages) now s in
    snd out = [] /\ lastMessageCount (fst out) = lastMessageCount s /\
    consecutiveEmptyPolls (fst out) = consecutiveEmptyPolls s + 1.
Proof.
  intros messages now s Hlen out. subst out.
  unfold checkForNewMessages_resume.
  destruct (Nat.ltb_spec (lastMessageCount s) (length messages)); [lia|].
  cbn [fst snd].
  match goal with |- context [adjustPollingFrequency now ?x] =>
    destruct (adjust_frame now x) as (_ & E1 & E2 & _);
    destruct (isPaused (adjustPollingFrequency now x)); cbn;
    rewrite E1, E2; cbn; auto
  end.
Qed.

Lemma shorter_inbox_shows_nothing_witness :
  let s := set_lastMessageCount 5 (set_session (Some "s1"%string) (init 0)) in
  let fresh3 := [mkMessageData (Some "c"%string) None None;
                 mkMessageData (Some "b"%string) None None;
                 mkMessageData (Some "a"%string) None None] in
  snd (checkForNewMessages_resume (RespData fresh3) 1000 s) = [].
Proof.
  intros s fresh3.
  destruct (shorter_inbox_shows_nothing fresh3 1000 s) as (H & _);
    [cbn; lia|]. exact H.
Defined.

(** X4. After clearSessionMessages has succeeded the count is 0, and the
    next poll shows the whole inbox, oldest first. *)
Theorem cleared_session_shows_all :
  forall messages now s,
    truthy (currentSessionId s) = true ->
    snd (checkForNewMessages (RespData messages) now (clearSessionMessages true s))
    = rev messages.
Proof.
  intros messages now s H.
  unfold clearSessionMessages. rewrite H. cbn [andb].
  unfold checkForNewMessages.
  change (currentSessionId (set_lastMessageCount 0 s)) with (currentSessionId s).
  rewrite H.
  destruct (resume_shown messages now (set_lastMessageCount 0 s)) as [E _].
  rewrite E. cbn [lastMessageCount set_lastMessageCount].
  destruct messages as [|m l]; [reflexivity|].
  rewrite Nat.sub_0_r, firstn_all. reflexivity.
Qed.

Lemma cleared_session_shows_all_witness :
  let m1 := mkMessageData (Some "eins"%string) None None in
  let m2 := mkMessageData (Some "zwei"%string) None None in
  let s := set_lastMessageCount 2 (set_session (Some "s1"%string) (init 0)) in
  snd (checkForNewMessages (RespData [m2; m1]) 1000 (clearSessionMessages true s))
  = [m1; m2].
Proof.
  intros m1 m2 s. apply (cleared_session_shows_all [m2; m1] 1000 s). reflexivity.
Defined.

(** X5. stopMessagePolling clears the timer but not a request that is
    under way: when that request settles in a client that is not paused,
    whatever it brings, the next poll is scheduled again, and the client
    cannot pause at that moment because it holds no handle. *)
Theorem stop_does_not_end_polling :
  forall r now s n,
    isPaused s = false -> inFlight s = S n ->
    let s' := run [EvStopMessagePolling; EvFetchSettles r now] s in
    isPaused s' = false /\
    messagePollingInterval s' = Some (Armed (currentPollingInterval s')).
Proof.
  intros r now s n Hp Hf s'. subst s'. cbn [run fold_left step].
  set (s1 := stopMessagePolling s).
  assert (H1 : messagePollingInterval s1 = None /\ isPaused s1 = false /\
               inFlight s1 = S n).
  { subst s1. unfold stopMessagePolling.
    destruct (messagePollingInterval s) eqn:E; cbn; auto. }
  destruct H1 as (Ht & Hp1 & Hf1). rewrite Hf1.
  set (s2 := set_loop _ _ _ _ s1).
  assert (Ht2 : messagePollingInterval s2 = None) by exact Ht.
  assert (Hp2 : isPaused s2 = false) by exact Hp1.
  clearbody s2. unfold checkForNewMessages_resume.
  destruct r as [messages| |].
  - destruct (lastMessageCount s2 <? length messages)%nat; cbn [fst];
      match goal with |- context [adjustPollingFrequency now ?x] =>
        destruct (adjust_without_handle now x Ht2) as (_ & E & _);
        cbn in E; rewrite E, Hp2; cbn; rewrite ?E, ?Hp2; auto
      end.
  - cbn. rewrite Hp2. cbn. auto.
  - cbn [fst].
    match goal with |- context [adjustPollingFrequency now ?x] =>
      destruct (adjust_without_handle now x Ht2) as (_ & E & _);
      cbn in E; rewrite E, Hp2; cbn; rewrite ?E, ?Hp2; auto
    end.
Qed.

Lemma stop_does_not_end_polling_witness :
  let s := mkState (Some (Armed 15000)) 0 (Some "s1"%string) 0 15000 0
             false false false 0 1 1 0 in
  messagePollingInterval
    (run [EvStopMessagePolling; EvFetchSettles (RespData []) 1000] s)
  = Some (Armed 8000).
Proof.
  intros s.
  destruct (stop_does_not_end_polling (RespData []) 1000 s 0) as [_ H];
    [reflexivity|reflexivity|]. exact H.
Defined.

(** X6. A pause does not cancel a timer callback that is already queued.
    When the idle rule pauses the client while such a callback waits, the
    callback still runs afterwards: it issues a request and arms the timer
    although the client is paused. *)
Theorem queued_callback_polls_while_paused :
  forall s messages now n,
    isPaused s = false ->
    messagePollingInterval s <> None ->
    isVoiceActive s = false -> isChatActive s = false ->
    (length messages <= lastMessageCount s)%nat ->
    600000 < now - lastActivity s ->
    5 < consecutiveEmptyPolls s + 1 ->
    truthy (currentSessionId s) = true ->
    idleCallbacks s = S n ->
    let s1 := fst (checkForNewMessages_resume (RespData messages) now s) in
    let s2 := step EvIdleCallback s1 in
    isPaused s1 = true /\ messagePollingInterval s1 = None /\
    isPaused s2 = true /\
    messagePollingInterval s2 = Some (Armed (currentPollingInterval s)) /\
    requests s2 = S (requests s).
Proof.
  intros s messages now n Hp Ht Hv Hc Hlen Htime Hcount Hsid Hidle s1 s2.
  assert (E0 : (lastMessageCount s <? length messages)%nat = false)
    by (apply Nat.ltb_ge; lia).
  assert (E1 : (600000 <? now - lastActivity s) = true) by (apply Z.ltb_lt; lia).
  assert (E2 : (5 <? consecutiveEmptyPolls s + 1) = true) by (apply Z.ltb_lt; lia).
  assert (Hs1 : s1 = set_paused true
                       (set_timer None (set_empty (consecutiveEmptyPolls s + 1) s))).
  { subst s1. unfold checkForNewMessages_resume. rewrite E0.
    unfold adjustPollingFrequency, completely_idle. cbn.
    rewrite Hv, Hc, E1, E2. cbn. unfold pausePolling. cbn. rewrite Hp.
    destruct (messagePollingInterval s); [reflexivity|congruence]. }
  subst s2. rewrite Hs1. cbn [step]. cbn. rewrite Hidle.
  unfold checkForNewMessages_fetch. cbn. rewrite Hsid. cbn. auto.
Qed.

Lemma queued_callback_polls_while_paused_witness :
  let s := mkState (Some Fired) 0 (Some "s1"%string) 0 15000 5
             false false false 1 1 6 0 in
  let s2 := step EvIdleCallback
              (fst (checkForNewMessages_resume (RespData []) 700000 s)) in
  isPaused s2 = true /\ requests s2 = 7%nat.
Proof.
  intros s s2.
  destruct (queued_callback_polls_while_paused s [] 700000 0)
    as (_ & _ & H1 & _ & H2);
    try reflexivity; try discriminate; cbn; try lia.
  split; assumption.
Defined.

(** X7. The 5-minute timeouts that markUserActivity sets are never
    cancelled. After two activities the first timeout to fire clears the
    chat flag, however recent the second activity is, while the timeout of
    the second activity is still pending. *)
Theorem chat_flag_cleared_by_older_timeout :
  forall s t1 t2,
    let s' := step EvChatReset (markUserActivity t2 (markUserActivity t1 s)) in
    isChatActive (markUserActivity t2 (markUserActivity t1 s)) = true /\
    isChatActive s' = false /\ lastActivity s' = t2 /\
    chatResets s' = S (chatResets s).
Proof.
  intros s t1 t2 s'. subst s'.
  destruct s as [t n sid la ci ce v c p i f r cr].
  unfold markUserActivity. destruct p; cbn; repeat split.
Qed.

(** X8. While the voice flag or the chat flag is set the idle rule does not
    apply: adjustPollingFrequency leaves the pause state and the timer as
    they are and sets the interval to 5000 ms, or to 6000 ms after more
    than 25 empty polls. *)
Theorem no_pause_while_active :
  forall now s,
    isVoiceActive s || isChatActive s = true ->
    let a := adjustPollingFrequency now s in
    isPaused a = isPaused s /\
    messagePollingInterval a = messagePollingInterval s /\
    currentPollingInterval a
    = if 25 <? consecutiveEmptyPolls s then 6000 else 5000.
Proof.
  intros now s H a. subst a.
  unfold adjustPollingFrequency, completely_idle, tier. rewrite H.
  destruct (isVoiceActive s), (isChatActive s); try discriminate H; cbn;
    destruct (25 <? consecutiveEmptyPolls s); cbn; auto.
Qed.

Lemma no_pause_while_active_witness :
  let s := mkState (Some (Armed 15000)) 0 (Some "s1"%string) 0 15000 30
             true false false 0 0 30 0 in
  currentPollingInterval (adjustPollingFrequency 9000000 s) = 6000.
Proof.
  intros s.
  destruct (no_pause_while_active 9000000 s) as (_ & _ & H); [reflexivity|].
  exact H.
Defined.

(** X9. With the flags and the count of empty polls the same, a longer time
    without activity never gives a shorter interval, as long as the idle
    rule applies at neither time. *)
Theorem interval_grows_with_idle_time :
  forall now1 now2 s,
    now1 <= now2 ->
    completely_idle now1 s = false -> completely_idle now2 s = false ->
    currentPollingInterval (adjustPollingFrequency now1 s)
    <= currentPollingInterval (adjustPollingFrequency now2 s).
Proof.
  intros now1 now2 s Hle H1 H2.
  unfold adjustPollingFrequency. rewrite H1, H2. cbn.
  assert (Ht : tier now1 s <= tier now2 s).
  { unfold tier. destruct (isVoiceActive s || isChatActive s); [lia|].
    destruct (Z.ltb_spec (now1 - lastActivity s) 120000),
             (Z.ltb_spec (now2 - lastActivity s) 120000),
             (Z.ltb_spec (now1 - lastActivity s) 600000),
             (Z.ltb_spec (now2 - lastActivity s) 600000); lia. }
  destruct (25 <? consecutiveEmptyPolls s); cbn; [|exact Ht].
  unfold dampen.
  destruct (tier_values now1 s) as [E1|[E1|[E1|E1]]],
           (tier_values now2 s) as [E2|[E2|[E2|E2]]];
    rewrite E1, E2 in Ht |- *; clear - Ht; revert Ht; vm_compute;
    intuition congruence.
Qed.

Lemma interval_grows_with_idle_time_witness :
  let s := mkState (Some (Armed 15000)) 0 (Some "s1"%string) 0 15000 2
             false false false 0 0 2 0 in
  currentPollingInterval (adjustPollingFrequency 100000 s)
  <= currentPollingInterval (adjustPollingFrequency 700000 s).
Proof.
  intros s.
  apply (interval_grows_with_idle_time 100000 700000 s); [lia| |]; reflexivity.
Defined.

End PollingMore.

(* ================================================================== *)
(** * Further properties of the transcript *)
(* ================================================================== *)

Module ChatMore.

Import Js Chat ChatFacts Page.
Local Open Scope string_scope.
Local Open Scope Z_scope.

(** ** Saving and loading *)

Lemma load_hit w v :
  getItem (storageKey w) (localStorage w) = Some v ->
  stored_truthy (Some v) = true ->
  snd (loadChatHistoryFromStorage w) = parsed v /\
  localStorage (fst (loadChatHistoryFromStorage w)) = localStorage w.
Proof.
  intros Hget Htr. unfold loadChatHistoryFromStorage.
  rewrite Hget, Htr. cbn [negb]. rewrite Htr.
  destruct v as [[|m h]|t]; cbn; [auto| |auto].
  unfold restoreChatMessagesToUI. destruct (chatMessages w); auto.
Qed.

Lemma load_ext w w' :
  BROWSER_SESSION_ID w' = BROWSER_SESSION_ID w ->
  localStorage w' = localStorage w ->
  snd (loadChatHistoryFromStorage w') = snd (loadChatHistoryFromStorage w).
Proof.
  destruct w as [t sid sc dom h ls pt cl vv vs].
  destruct w' as [t' sid' sc' dom' h' ls' pt' cl' vv' vs'].
  cbn. intros -> ->.
  unfold loadChatHistoryFromStorage, restoreChatMessagesToUI, storageKey,
    set_localStorage, set_chatMessages.
  cbn -[sort chatHistoryKeys getItem setItem stored_truthy].
  destruct (stored_truthy (getItem _ ls)) eqn:E1;
    cbn -[sort chatHistoryKeys getItem setItem stored_truthy].
  - rewrite E1. destruct (getItem _ ls) as [[[|m l]|]|]; try reflexivity.
    all: try (destruct dom, dom'; reflexivity).
  - destruct (sort byTimestamp (chatHistoryKeys ls)) as [|latest rest].
    + rewrite E1. reflexivity.
    + destruct (stored_truthy (getItem latest ls)) eqn:E2;
        destruct (truthy sid);
        cbn -[sort chatHistoryKeys getItem setItem stored_truthy];
        rewrite ?E2; try reflexivity;
        destruct (getItem latest ls) as [[[|m l]|]|]; try reflexivity;
        try (destruct dom, dom'; reflexivity).
Qed.

Lemma truthy_default sid :
  truthy sid = true -> default "" sid = js_or sid "default".
Proof.
  destruct sid as [x|]; cbn; [|discriminate].
  destruct (String.eqb x ""); [discriminate|reflexivity].
Qed.

Lemma load_result w :
  let out := loadChatHistoryFromStorage w in
  localStorage (fst out) = localStorage w \/
  exists v,
    stored_truthy (Some v) = true /\
    localStorage (fst out) = setItem (storageKey w) v (localStorage w) /\
    snd out = parsed v.
Proof.
  unfold loadChatHistoryFromStorage, restoreChatMessagesToUI.
  destruct (stored_truthy (getItem (storageKey w) (localStorage w))) eqn:E1;
    cbn [negb].
  - left. rewrite E1.
    destruct (getItem (storageKey w) (localStorage w)) as [[[|m l]|]|];
      try reflexivity.
    destruct (chatMessages w); reflexivity.
  - destruct (sort byTimestamp (chatHistoryKeys (localStorage w)))
      as [|latest rest].
    + left. rewrite E1. reflexivity.
    + destruct (stored_truthy (getItem latest (localStorage w))) eqn:E2;
        cbn [andb].
      * destruct (truthy (BROWSER_SESSION_ID w)) eqn:Es.
        -- right. destruct (getItem latest (localStorage w)) as [v|] eqn:Eg;
             [|discriminate E2].
           exists v. split; [exact E2|].
           unfold storageKey. rewrite <- (truthy_default _ Es).
           rewrite E2. cbn [default from_option id].
           destruct v as [[|m l]|t]; cbn; auto.
           destruct (chatMessages w); cbn; auto.
        -- left. rewrite E2.
           destruct (getItem latest (localStorage w)) as [[[|m l]|]|];
             try reflexivity.
           destruct (chatMessages w); reflexivity.
      * left. rewrite E2. reflexivity.
Qed.

(** X10. What saveChatHistoryToStorage has saved is what
    loadChatHistoryFromStorage returns: on the same page, and on any page
    loaded later with the same session id and the same storage, whatever
    else is stored. Loading changes nothing in storage then. *)
Theorem saved_history_loads_back :
  forall h w w',
    BROWSER_SESSION_ID w' = BROWSER_SESSION_ID w ->
    localStorage w' = localStorage (saveChatHistoryToStorage h w) ->
    snd (loadChatHistoryFromStorage w') = h /\
    localStorage (fst (loadChatHistoryFromStorage w')) = localStorage w'.
Proof.
  intros h w w' Hs Hl.
  apply (load_hit w' (Json h)); [|reflexivity].
  rewrite Hl, (storageKey_session w w' Hs). cbn.
  apply getItem_setItem.
Qed.

Lemma saved_history_loads_back_witness :
  let h := [mkChatMessage "user" "Hallo" 1 "chat" false] in
  let w := fresh 1 (Some "s1") true (Some [])
             None [("chatHistory_999_z", Json [])] in
  let reloaded := fresh 50 (Some "s1") true (Some []) None
                    (localStorage (saveChatHistoryToStorage h w)) in
  snd (loadChatHistoryFromStorage reloaded) = h.
Proof.
  intros h w reloaded.
  destruct (saved_history_loads_back h w reloaded) as [H _];
    [reflexivity|reflexivity|]. exact H.
Defined.

(** X11. Loading twice gives the same transcript as loading once: a
    transcript adopted from another session is copied under the key of the
    current session (when the page has a session id) and found there the
    next time, and in every other case loading leaves storage as it is. *)
Theorem load_twice_same :
  forall w,
    snd (loadChatHistoryFromStorage (fst (loadChatHistoryFromStorage w)))
    = snd (loadChatHistoryFromStorage w).
Proof.
  intros w.
  destruct (load_fields w) as (_ & Hs & _).
  destruct (load_result w) as [Hl|(v & Hv & Hl & Hsnd)].
  - now apply load_ext.
  - rewrite Hsnd.
    apply (load_hit (fst (loadChatHistoryFromStorage w)) v); [|exact Hv].
    rewrite Hl, (storageKey_session w _ Hs). apply getItem_setItem.
Qed.

(** ** The cap of the chat path *)

Lemma slice_last_app {A} n (a b : list A) :
  slice_last n (slice_last n a ++ b) = slice_last n (a ++ b).
Proof.
  destruct (Nat.le_gt_cases (length a) n) as [Hle|Hgt].
  - now rewrite (slice_last_short n a Hle).
  - unfold slice_last at 2.
    rewrite <- (drop_app_le a b (length a - n)) by lia.
    unfold slice_last. rewrite drop_drop, !length_drop, !length_app.
    f_equal. lia.
Qed.

Lemma addChatMessages_spec (l : list (string * string * string)) :
  forall x w d h,
    chatMessages w = Some d -> chatHistory w = Some h ->
    let h' := slice_last 30 (h ++ map (entryOf (clock w)) (x :: l)) in
    let w' := addChatMessages (x :: l) w in
    chatHistory w' = Some h' /\
    getItem (storageKey w) (localStorage w') = Some (Json h') /\
    clock w' = clock w /\ chatScript w' = chatScript w /\
    is_Some (chatMessages w').
Proof.
  induction l as [|y l IH]; intros [[message sender] src] w d h Hd Hh h' w';
    destruct (add_appends message sender src w d h Hd Hh)
      as (H1 & H2 & Htm & Hs & Hsc & Hd1);
    unfold timing in Htm; injection Htm as Hc _ _.
  - subst h' w'. cbn. rewrite H1, H2, Hc, Hsc, Hd1. eauto 10.
  - subst h' w'.
    change (addChatMessages ((message, sender, src) :: y :: l) w)
      with (addChatMessages (y :: l)
              (addChatMessageWithSource message sender src w)).
    destruct (IH y _ _ _ Hd1 H1) as (G1 & G2 & G3 & G4 & G5).
    rewrite Hc in G1, G2.
    rewrite (storageKey_session w _ Hs) in G2.
    rewrite slice_last_app, <- app_assoc in G1, G2.
    rewrite G1, G2, G3, G4, Hc, Hsc. auto.
Qed.

(** X12. On a page with the chat container, whatever is appended through
    addChatMessageWithSource, one message or many in a row: the history in
    memory and the one saved under the session's key are the last 30
    entries, in the order of appending, of the old history followed by the
    new entries; they never hold more than 30. *)
Theorem chat_path_keeps_last_30 :
  forall x l w d h,
    chatMessages w = Some d -> chatHistory w = Some h ->
    let h' := slice_last 30 (h ++ map (entryOf (clock w)) (x :: l)) in
    let w' := addChatMessages (x :: l) w in
    chatHistory w' = Some h' /\
    getItem (storageKey w) (localStorage w') = Some (Json h') /\
    (length h' <= 30)%nat /\
    (exists dropped, (h ++ map (entryOf (clock w)) (x :: l))%list = (dropped ++ h')%list).
Proof.
  intros x l w d h Hd Hh h' w'.
  destruct (addChatMessages_spec l x w d h Hd Hh) as (H1 & H2 & _).
  split; [exact H1|]. split; [exact H2|]. split.
  - subst h'. rewrite slice_last_length. lia.
  - exists (take (length (h ++ map (entryOf (clock w)) (x :: l)) - 30)
              (h ++ map (entryOf (clock w)) (x :: l))).
    subst h'. unfold slice_last. now rewrite take_drop.
Qed.

Lemma chat_path_keeps_last_30_witness :
  let w := set_chatHistory (Some []) (fresh 7 (Some "s1") true (Some []) None []) in
  let l := repeat ("Hallo", "user", "chat") 40 in
  (length <$> chatHistory (addChatMessages (("Erste", "user", "chat") :: l) w))
  = Some 30%nat.
Proof.
  intros w l.
  destruct (chat_path_keeps_last_30 ("Erste", "user", "chat") l w [] [])
    as (H & _); [reflexivity|reflexivity|].
  rewrite H. vm_compute. reflexivity.
Defined.

(** ** A poll that reaches the chat *)

Lemma display_as_appends l :
  forall w d h,
    chatScript w = true -> chatMessages w = Some d -> chatHistory w = Some h ->
    displayNewMessages l w = addChatMessages (map shownAs l) w.
Proof.
  induction l as [|m l IH]; intros w d h Hsc Hd Hh; [reflexivity|].
  cbn [displayNewMessages addChatMessages fold_left map].
  unfold displayNewMessage at 2. rewrite Hsc. unfold shownAs at 2.
  destruct (add_appends (js_or (md_content m) "Keine Nachricht")
              (js_or (md_role m) "assistant")
              (js_or (md_source m) "voice-function") w d h Hd Hh)
    as (H1 & _ & _ & _ & Hsc1 & Hd1).
  rewrite Hsc in Hsc1.
  exact (IH _ _ _ Hsc1 Hd1 H1).
Qed.

(** X13. A poll that finds new messages enters them in the transcript in
    the order in which they were written: the inbox is newest first, the
    messages not yet shown are taken from its head, and the transcript ends
    with their entries oldest first (cut to its last 30 entries). *)
Theorem poll_appends_oldest_first :
  forall p (old new : list MessageData) d h,
    truthy (Polling.currentSessionId (polling p)) = true ->
    Polling.lastMessageCount (polling p) = length old ->
    new <> [] ->
    chatScript (chat p) = true ->
    chatMessages (chat p) = Some d -> chatHistory (chat p) = Some h ->
    chatHistory (chat (pollAndDisplay (Polling.RespData (new ++ old)) p))
    = Some (slice_last 30
              (h ++ map (fun m => entryOf (clock (chat p)) (shownAs m)) (rev new))).
Proof.
  intros p old new d h Hsid Hlast Hnew Hsc Hd Hh.
  unfold pollAndDisplay, Polling.checkForNewMessages. rewrite Hsid.
  destruct (PollingMore.resume_shown (new ++ old) (clock (chat p)) (polling p))
    as [Hshown _].
  destruct (Polling.checkForNewMessages_resume _ _ _) as [s shown].
  cbn [snd] in Hshown. cbn [chat].
  assert (Hlt : (Polling.lastMessageCount (polling p) <? length (new ++ old))%nat = true).
  { apply Nat.ltb_lt. rewrite Hlast, length_app.
    destruct new; [congruence|cbn; lia]. }
  rewrite Hlt, Hlast, length_app in Hshown.
  replace (length new + length old - length old)%nat with (length new) in Hshown by lia.
  rewrite take_app_length in Hshown. subst shown.
  rewrite (display_as_appends _ _ d h Hsc Hd Hh).
  destruct (rev new) as [|x l] eqn:Er.
  - apply (f_equal (@length _)) in Er. rewrite length_rev in Er.
    destruct new; [congruence|discriminate].
  - destruct (addChatMessages_spec (map shownAs l) (shownAs x) (chat p) d h Hd Hh)
      as (H1 & _).
    cbn [map]. rewrite H1. cbn [map]. now rewrite map_map.
Qed.

Lemma poll_appends_oldest_first_witness :
  let m1 := mkMessageData (Some "eins") (Some "assistant") None in
  let m2 := mkMessageData (Some "zwei") (Some "assistant") None in
  let w := set_chatHistory (Some []) (fresh 7 (Some "s1") true (Some []) None []) in
  let p := mkPage (Polling.set_session (Some "s1") (Polling.init 0)) w false in
  (map content <$>
     chatHistory (chat (pollAndDisplay (Polling.RespData ([m2; m1] ++ [])) p)))
  = Some ["eins"; "zwei"].
Proof.
  intros m1 m2 w p.
  rewrite (poll_appends_oldest_first p [] [m2; m1] [] []);
    try reflexivity. discriminate.
Defined.

(** ** The duplicate check, further *)

Lemma split_pieces_nodash s :
  Forall (fun piece => nodash piece = true) (split "-" s).
Proof.
  induction s as [|c s IH]; [repeat constructor|].
  cbn -[Ascii.eqb]. destruct (Ascii.eqb c "-") eqn:Ec.
  - constructor; [reflexivity|exact IH].
  - destruct (split "-" s) as [|a l]; [repeat constructor; cbn -[Ascii.eqb]; now rewrite Ec|].
    inversion IH as [|? ? Ha Hl]; subst.
    constructor; [|exact Hl]. cbn -[Ascii.eqb]. now rewrite Ec, Ha.
Qed.

(** X14. A transcript whose trimmed text holds a '-' is never taken for a
    duplicate, whatever the set of recent transcripts holds, its own entry
    included: the check compares the text with the second piece of
    [id.split('-', 2)], and a piece holds no '-'. *)
Theorem hyphenated_text_never_matches :
  forall r k w,
    nodash k = false ->
    recentlyProcessed r k w = false /\
    (forall id, sameTranscript r k id = false).
Proof.
  intros r k w Hk.
  assert (H : forall id, sameTranscript r k id = false).
  { intros id. unfold sameTranscript, split2.
    pose proof (split_pieces_nodash id) as Hp.
    destruct (split "-" id) as [|a [|b l]]; try reflexivity.
    inversion Hp as [|? ? _ Hp']; subst. inversion Hp' as [|? ? Hb _]; subst.
    destruct (String.eqb_spec b k) as [->|Hne]; [congruence|].
    apply andb_false_r. }
  split; [|exact H].
  unfold recentlyProcessed. induction (elements (processedTranscripts w)) as [|id l IH];
    [reflexivity|]. cbn. now rewrite H, IH.
Qed.

Lemma hyphenated_text_never_matches_witness :
  let w := set_processed {["assistant-E-Mail gesendet"]} []
             (fresh 0 (Some "s1") true None None []) in
  recentlyProcessed "assistant" "E-Mail gesendet" w = false.
Proof.
  intros w.
  destruct (hyphenated_text_never_matches "assistant" "E-Mail gesendet" w) as [H _];
    [reflexivity|]. exact H.
Defined.

(** X15. A transcript is taken for a duplicate of a different, longer one:
    while the entry of a text [k-x] is in the set, a transcript of the same
    role whose trimmed text is [k] (role and [k] without '-') is dropped
    although it was never delivered before. *)
Theorem prefix_taken_for_duplicate :
  forall message w r t k x,
    vm_role message = Some r -> vm_transcript message = Some t ->
    trim t = k -> nodash r = true -> nodash k = true ->
    (r ++ "-" ++ k ++ "-" ++ x)%string ∈ processedTranscripts w ->
    handleVoiceTranscript message w = w.
Proof.
  intros message w r t k x Hr Ht Htrim Hnr Hnk Hin.
  assert (Hsame : sameTranscript r k (r ++ "-" ++ k ++ "-" ++ x) = true).
  { unfold sameTranscript, split2.
    rewrite (split_join r (k ++ "-" ++ x) Hnr), (split_join k x Hnk).
    destruct (split "-" x); now rewrite !String.eqb_refl. }
  assert (Hrec : recentlyProcessed r k w = true).
  { unfold recentlyProcessed. apply existsb_exists.
    exists (r ++ "-" ++ k ++ "-" ++ x)%string. split; [|exact Hsame].
    apply list_elem_of_In, elem_of_elements, Hin. }
  unfold handleVoiceTranscript. rewrite Hr, Ht.
  cbn [default from_option id]. rewrite Htrim.
  destruct (negb (truthy (Some t)) || negb (truthy (Some r))); [reflexivity|].
  now rewrite Hrec.
Qed.

Lemma prefix_taken_for_duplicate_witness :
  let w := set_processed {["assistant-Montag-Dienstag"]} [(10000, "assistant-Montag-Dienstag")]
             (fresh 0 (Some "s1") true None None []) in
  let m := mkVoiceMessage (Some "assistant") (Some "Montag") None in
  handleVoiceTranscript m w = w.
Proof.
  intros w m.
  apply (prefix_taken_for_duplicate m w "assistant" "Montag" "Montag" "Dienstag");
    try reflexivity; try (apply elem_of_singleton; reflexivity).
Defined.

(** X16. The entry of a transcript lasts until its timeout runs, and
    that is never before 10000 ms have passed. On a page whose set of
    recent transcripts is empty, after a transcript has been taken in: the
    passing of time alone never removes the entry; before 10000 ms have
    passed no timeout can run; when the timeout runs, at 10000 ms or later,
    the set is empty again, no timeout is pending and the same transcript
    would be taken in anew; and as long as the timeout has not run, also
    after more than 10000 ms, the same transcript (role and trimmed text
    without '-') is still dropped. *)
Theorem entry_lasts_until_cleanup_runs :
  forall message w r t,
    vm_role message = Some r -> r <> "" ->
    vm_transcript message = Some t -> t <> "" ->
    processedTranscripts w = ∅ -> cleanups w = [] ->
    let w1 := handleVoiceTranscript message w in
    let entry := (r ++ "-" ++ trim t)%string in
    (forall t2, entry ∈ processedTranscripts (advance t2 w1)) /\
    (forall t2, t2 < clock w + 10000 -> cleanup (advance t2 w1) = advance t2 w1) /\
    (forall t2, clock w + 10000 <= t2 ->
       processedTranscripts (cleanup (advance t2 w1)) = ∅ /\
       cleanups (cleanup (advance t2 w1)) = [] /\
       recentlyProcessed r (trim t) (cleanup (advance t2 w1)) = false) /\
    (nodash r = true -> nodash (trim t) = true ->
     forall t2, handleVoiceTranscript message (advance t2 w1) = advance t2 w1).
Proof.
  intros message w r t Hr Hrne Ht Htne Hset Hcl w1 entry.
  assert (Hrec : recentlyProcessed r (trim t) w = false).
  { unfold recentlyProcessed. rewrite Hset, elements_empty. reflexivity. }
  pose proof (timing_voice_new message w r t Hr Hrne Ht Htne Hrec) as E.
  fold w1 in E. unfold timing, noted in E. injection E as E1 E2 E3.
  rewrite Hset in E2. rewrite Hcl in E3. cbn [app] in E3.
  fold entry in E2, E3. clearbody w1.
  assert (Hin : forall t2, entry ∈ processedTranscripts (advance t2 w1)).
  { intros t2. unfold advance. cbn [processedTranscripts set_clock].
    rewrite E2. apply elem_of_union. left. now apply elem_of_singleton. }
  split; [exact Hin|]. split; [|split].
  - intros t2 Hlt. unfold cleanup, advance. cbn [cleanups clock set_clock].
    rewrite E1, E3.
    destruct (Z.leb_spec (clock w + 10000) (Z.max (clock w) t2)); [lia|reflexivity].
  - intros t2 Hge.
    assert (Hempty : processedTranscripts (cleanup (advance t2 w1)) = ∅ /\
                     cleanups (cleanup (advance t2 w1)) = []).
    { unfold cleanup, advance. cbn [cleanups clock processedTranscripts set_clock].
      rewrite E1, E3.
      destruct (Z.leb_spec (clock w + 10000) (Z.max (clock w) t2)); [|lia].
      cbn [cleanups processedTranscripts set_processed]. split; [|reflexivity].
      rewrite E2. apply set_eq. intros y.
      split; [|intros Hy; now apply not_elem_of_empty in Hy].
      intros [Hy Hn]%elem_of_difference.
      apply elem_of_union in Hy as [Hy|Hy]; [contradiction|].
      now apply not_elem_of_empty in Hy. }
    destruct Hempty as [Hs Hc]. split; [exact Hs|]. split; [exact Hc|].
    unfold recentlyProcessed. rewrite Hs, elements_empty. reflexivity.
  - intros Hnr Hnk t2.
    pose proof (recentlyProcessed_elem r (trim t) (advance t2 w1) Hnr Hnk (Hin t2))
      as Hdup.
    apply String.eqb_neq in Hrne as Er. apply String.eqb_neq in Htne as Et.
    unfold handleVoiceTranscript. rewrite Hr, Ht.
    cbn [truthy default from_option id]. rewrite Er, Et. cbn [negb orb].
    now rewrite Hdup.
Qed.

Lemma entry_lasts_until_cleanup_runs_witness :
  let w := fresh 0 (Some "s1") true None None [] in
  let m := mkVoiceMessage (Some "user") (Some "Hallo") None in
  let w1 := handleVoiceTranscript m w in
  handleVoiceTranscript m (advance 12000 w1) = advance 12000 w1 /\
  recentlyProcessed "user" "Hallo" (cleanup (advance 12000 w1)) = false.
Proof.
  intros w m w1.
  destruct (entry_lasts_until_cleanup_runs m w "user" "Hallo")
    as (_ & _ & H3 & H4);
    [reflexivity|discriminate|reflexivity|discriminate|reflexivity|reflexivity|].
  split.
  - apply H4; reflexivity.
  - apply (H3 12000). cbn. lia.
Defined.

(** X17. A voice message without a role or without a transcript changes
    nothing at all. One whose transcript is only white space is noted in
    the set of recent transcripts, and nothing else happens: the history,
    the storage, the chat container and the context stay as they are. *)
Theorem unusable_transcript_not_entered :
  forall message w,
    (truthy (vm_role message) = false \/ truthy (vm_transcript message) = false ->
     handleVoiceTranscript message w = w) /\
    (forall t, vm_transcript message = Some t -> trim t = "" ->
       let w' := handleVoiceTranscript message w in
       chatHistory w' = chatHistory w /\ localStorage w' = localStorage w /\
       chatMessages w' = chatMessages w /\ variableValues w' = variableValues w).
Proof.
  intros message w. split.
  - intros H. unfold handleVoiceTranscript.
    destruct H as [H|H]; rewrite H; cbn; [now rewrite orb_true_r|reflexivity].
  - intros t Ht Htrim w'. subst w'. unfold handleVoiceTranscript.
    rewrite Ht. cbn [default from_option id]. rewrite Htrim.
    destruct (negb (truthy (Some t)) || negb (truthy (vm_role message)));
      [auto|].
    destruct (recentlyProcessed _ "" w); [auto|].
    cbn. auto.
Qed.

(** ** Clearing *)

Lemma getItem_removeItem k k' ls :
  getItem k' (removeItem k ls) = if String.eqb k k' then None else getItem k' ls.
Proof.
  unfold removeItem. induction ls as [|[k0 v0] ls IH].
  - cbn. now destruct (String.eqb k k').
  - rewrite filter_cons. cbn [fst].
    destruct (String.eqb_spec k k0) as [->|Hne]; cbn [negb].
    + destruct (decide (Is_true false)) as [[]|_]. rewrite IH.
      cbn [getItem]. rewrite (String.eqb_sym k' k0).
      now destruct (String.eqb k0 k').
    + destruct (decide (Is_true true)) as [_|Hn]; [|now destruct Hn].
      cbn [getItem]. rewrite IH.
      destruct (String.eqb_spec k k') as [->|Hne'].
      * apply String.eqb_neq in Hne. now rewrite Hne.
      * reflexivity.
Qed.

(** X18. clearChatHistory empties the history in memory and the chat
    container and removes the transcript saved under the key of the
    current session; what is stored under any other key, the transcripts of
    other sessions included, stays. A page loaded afterwards with the same
    session id therefore gets the empty transcript only if no other
    session has left one. *)
Theorem clear_removes_only_current :
  forall w,
    let w' := clearChatHistory w in
    chatHistory w' = Some [] /\
    getItem (storageKey w) (localStorage w') = None /\
    (forall k, k <> storageKey w ->
       getItem k (localStorage w') = getItem k (localStorage w)) /\
    (chatMessages w' = None \/ chatMessages w' = Some []) /\
    (forall w2,
       BROWSER_SESSION_ID w2 = BROWSER_SESSION_ID w ->
       localStorage w2 = localStorage w' ->
       chatHistoryKeys (localStorage w') = [] ->
       snd (loadChatHistoryFromStorage w2) = []).
Proof.
  intros w w'.
  assert (H : chatHistory w' = Some [] /\
              localStorage w' = removeItem (storageKey w) (localStorage w) /\
              (chatMessages w' = None \/ chatMessages w' = Some [])).
  { subst w'. unfold clearChatHistory. cbn.
    destruct (chatMessages w) eqn:E; cbn; rewrite ?E; repeat split; auto. }
  destruct H as (Hh & Hls & Hdom). clearbody w'.
  split; [exact Hh|]. rewrite Hls.
  split; [rewrite getItem_removeItem; now rewrite String.eqb_refl|].
  split.
  { intros k Hk. rewrite getItem_removeItem.
    destruct (String.eqb_spec (storageKey w) k); [congruence|reflexivity]. }
  split; [exact Hdom|].
  intros w2 Hs Hl Hkeys. unfold loadChatHistoryFromStorage.
  rewrite Hl, (storageKey_session w w2 Hs), getItem_removeItem,
    String.eqb_refl, Hkeys. reflexivity.
Qed.

(** ** The context follows the transcript *)

Lemma js_or_not_empty a b : b <> "" -> js_or a b <> "".
Proof.
  intros Hb. unfold js_or. destruct a as [x|]; [|exact Hb].
  destruct (String.eqb_spec x ""); [exact Hb|assumption].
Qed.

(** X19. On a page with the chat container and the assistant
    configuration, after every addChatMessageWithSource the variable
    conversation_context is the rendering of the transcript as it is then,
    and it is never the empty string. *)
Theorem context_follows_transcript :
  forall message sender src w d vv,
    chatMessages w = Some d -> variableValues w = Some vv ->
    let w' := addChatMessageWithSource message sender src w in
    (variableValues w' ≫= (.!! "conversation_context"))
    = Some (context_or_placeholder (chatHistory w')) /\
    context_or_placeholder (chatHistory w') <> "".
Proof.
  intros message sender src w d vv Hd Hvv w'.
  split; [|apply js_or_not_empty; discriminate].
  subst w'. unfold addChatMessageWithSource. rewrite Hd. cbn zeta.
  set (w1 := match chatHistory w with
             | Some _ => w
             | None => let '(w0, h) := loadChatHistoryFromStorage w in
                       set_chatHistory (Some h) w0
             end).
  assert (Hvv1 : variableValues w1 = Some vv).
  { subst w1. destruct (chatHistory w); [exact Hvv|].
    destruct (load_fields w) as (_ & _ & _ & _ & Hv & _).
    destruct (loadChatHistoryFromStorage w) as [w0 h]. cbn in *. congruence. }
  unfold updateConversationContext.
  cbn [variableValues saveChatHistoryToStorage set_localStorage set_chatHistory].
  rewrite Hvv1. cbn. now rewrite lookup_insert_eq.
Qed.

Lemma context_follows_transcript_witness :
  let w := fresh 7 (Some "s1") true (Some []) (Some ∅) [] in
  let w' := addChatMessageWithSource "Hallo" "user" "chat" w in
  (variableValues w' ≫= (.!! "conversation_context")) = Some "User: Hallo".
Proof.
  intros w w'.
  destruct (context_follows_transcript "Hallo" "user" "chat" w [] ∅) as [H _];
    [reflexivity|reflexivity|].
  fold w' in H. rewrite H. vm_compute. reflexivity.
Defined.

End ChatMore.

(* ================================================================== *)
(** * Properties of scrolling and sending *)
(* ================================================================== *)

Module PageFacts.

Import Js Chat ChatFacts Page.
Local Open Scope string_scope.
Local Open Scope Z_scope.

(** X20. The tolerance of scrollToBottomIfNeeded lies between 500 and
    1200 pixels whatever the height of the container. Without force the
    function scrolls (to the full scroll height) whenever the view ends at
    most 500 pixels above the bottom and never when it ends more than 1200
    pixels above it; with force it always scrolls; without the container
    it does nothing. *)
Theorem autoscroll_within_tolerance :
  forall c,
    let gap := scrollHeight c - (scrollTop c + clientHeight c) in
    500 <= scrollTolerance c <= 1200 /\
    scrollToBottomIfNeeded true (Some c) = Some (scrollHeight c) /\
    (gap <= 500 -> scrollToBottomIfNeeded false (Some c) = Some (scrollHeight c)) /\
    (1200 < gap -> scrollToBottomIfNeeded false (Some c) = None) /\
    (125 <= clientHeight c <= 300 ->
       scrollToBottomIfNeeded false (Some c)
       = if gap <=? 4 * clientHeight c then Some (scrollHeight c) else None) /\
    (forall force, scrollToBottomIfNeeded force None = None).
Proof.
  intros c gap.
  assert (Ht : 500 <= scrollTolerance c <= 1200) by (unfold scrollTolerance; lia).
  split; [exact Ht|]. split; [reflexivity|].
  unfold scrollToBottomIfNeeded, isNearBottom. subst gap.
  split; [|split; [|split]].
  - intros Hg.
    destruct (Z.leb_spec (scrollHeight c - scrollTolerance c)
                (scrollTop c + clientHeight c)); [reflexivity|lia].
  - intros Hg.
    destruct (Z.leb_spec (scrollHeight c - scrollTolerance c)
                (scrollTop c + clientHeight c)); [lia|reflexivity].
  - intros Hh.
    assert (E : scrollTolerance c = 4 * clientHeight c)
      by (unfold scrollTolerance; lia).
    rewrite E.
    destruct (Z.leb_spec (scrollHeight c - 4 * clientHeight c)
                (scrollTop c + clientHeight c)),
             (Z.leb_spec (scrollHeight c - (scrollTop c + clientHeight c))
                (4 * clientHeight c)); try reflexivity; lia.
  - reflexivity.
Qed.

Lemma js_or_not_empty_str a : js_or a "Keine vorherigen Nachrichten" <> "".
Proof.
  unfold js_or. destruct a as [x|]; [|discriminate].
  destruct (String.eqb_spec x ""); [discriminate|assumption].
Qed.

Lemma last_slice_last {A} n (l : list A) (x : A) :
  last (slice_last (S n) (l ++ [x])) = Some x.
Proof.
  unfold slice_last. rewrite length_app. cbn [length].
  replace (length l + 1 - S n)%nat with (length l - n)%nat by lia.
  rewrite drop_app_le by lia. apply last_snoc.
Qed.

(** X21. A message that is not blank, typed while no voice call is on, on
    a page with the chat container: sendChatMessage enters it in the
    transcript first and then posts it; the chat_history of the request is
    the transcript as it is then, at most 30 entries, the last of which is
    the message just typed with role user and source chat; the
    conversation_context of the request is never empty; the typing
    indicator is shown. *)
Theorem request_carries_transcript :
  forall e message p d h,
    trim message <> "" -> voiceCall e = false ->
    chatMessages (chat p) = Some d -> chatHistory (chat p) = Some h ->
    let p' := fst (sendChatMessage e message p) in
    exists body,
      snd (sendChatMessage e message p) = Some (ToBackend body) /\
      rq_message body = message /\
      chatHistory (chat p') = Some (rq_chat_history body) /\
      rq_chat_history body
      = slice_last 30
          (h ++ [mkChatMessage "user" message (clock (chat p)) "chat" false]) /\
      last (rq_chat_history body)
      = Some (mkChatMessage "user" message (clock (chat p)) "chat" false) /\
      (length (rq_chat_history body) <= 30)%nat /\
      rq_conversation_context body <> "" /\
      typingIndicator p' = true.
Proof.
  intros e message p d h Htrim Hv Hd Hh p'.
  apply String.eqb_neq in Htrim as Et.
  destruct (add_appends message "user" "chat" (chat p) d h Hd Hh) as (H1 & _).
  change (chatRole "user") with "user" in H1.
  subst p'. unfold sendChatMessage. rewrite Et, Hv. cbn [fst snd].
  unfold addChatMessage. rewrite H1. cbn [default from_option id].
  eexists. split; [reflexivity|]. cbn [rq_message rq_chat_history
    rq_conversation_context chat typingIndicator].
  rewrite slice_last_short by (rewrite slice_last_length; lia).
  repeat split.
  - exact H1.
  - apply last_slice_last.
  - rewrite slice_last_length. lia.
  - apply js_or_not_empty_str.
Qed.

Lemma request_carries_transcript_witness :
  let w := set_chatHistory (Some []) (fresh 7 (Some "s1") true (Some []) None []) in
  let p := mkPage (Polling.init 0) w false in
  let e := mkSurroundings true false in
  exists body,
    snd (sendChatMessage e "Guten Tag" p) = Some (ToBackend body) /\
    rq_chat_history body = [mkChatMessage "user" "Guten Tag" 7 "chat" false].
Proof.
  intros w p e.
  destruct (request_carries_transcript e "Guten Tag" p [] [])
    as (body & H1 & _ & _ & H2 & _);
    [discriminate|reflexivity|reflexivity|reflexivity|].
  exists body. split; [exact H1|exact H2].
Defined.



(** X23. How the request ends, on a page with the chat container. An
    answer with a message appends that message as an assistant entry; an
    answer without one appends the fixed apology; the indicator is hidden.
    A status outside 200..299 hides the indicator and appends nothing. When
    the request itself fails (or is aborted after 5 minutes) nothing is
    appended and the typing indicator stays as it is, that is shown: the
    transcript is left as it was. *)
Theorem request_outcomes :
  forall p d h,
    chatMessages (chat p) = Some d -> chatHistory (chat p) = Some h ->
    (forall message session_id,
       let p' := sendChatMessage_settle (ReplyOk message session_id) p in
       chatHistory (chat p')
       = Some (slice_last 30
                 (h ++ [mkChatMessage "assistant" (js_or message noAnswer)
                          (clock (chat p)) "chat" false])) /\
       typingIndicator p' = false) /\
    (chatHistory (chat (sendChatMessage_settle ReplyStatus p)) = Some h /\
     typingIndicator (sendChatMessage_settle ReplyStatus p) = false) /\
    (chatHistory (chat (sendChatMessage_settle ReplyRejected p)) = Some h /\
     typingIndicator (sendChatMessage_settle ReplyRejected p) = typingIndicator p).
Proof.
  intros p d h Hd Hh. split; [|split; [split|split]]; try reflexivity;
    try exact Hh.
  intros message session_id p'. subst p'. cbn [sendChatMessage_settle].
  destruct (add_appends (js_or message noAnswer) "assistant" "chat"
              (chat p) d h Hd Hh) as (H1 & _).
  change (chatRole "assistant") with "assistant" in H1.
  unfold addChatMessage. cbn [chat typingIndicator].
  destruct (truthy session_id); cbn; rewrite H1; auto.
Qed.

Lemma request_outcomes_witness :
  let w := set_chatHistory (Some []) (fresh 7 (Some "s1") true (Some []) None []) in
  let p := fst (sendChatMessage (mkSurroundings false false) "Hallo"
                  (mkPage (Polling.init 0) w false)) in
  let p' := sendChatMessage_settle ReplyRejected p in
  chatHistory (chat p') = Some [mkChatMessage "user" "Hallo" 7 "chat" false] /\
  typingIndicator p' = true.
Proof.
  intros w p p'.
  destruct (request_outcomes p [Bubble "Hallo" "user" "chat"]
              [mkChatMessage "user" "Hallo" 7 "chat" false])
    as (_ & _ & H1 & H2); [reflexivity|reflexivity|].
  split; [exact H1|exact H2].
Defined.

End PageFacts.
